(** * python_book: the Docusaurus site configuration

    A model of [docusaurus.config.js], the code of the site:
    the configuration object literal exported by the module, and the two
    functions it defines, [baiduPlugin] and the [injectHtmlTags] hook of
    the object [baiduPlugin] returns.  The Python classes of the chapter
    [docs/magic_methods.md] follow, each in a module of its own.

    JavaScript values are modelled twice, as the proofs need them:
    - [value]: a value read as a tree (an object is the list of its
      properties in insertion order, an array the list of its items);
    - [hval] and [heap]: a value as the program holds it, where objects
      and arrays are cells of a store and are held by reference.
    [alloc] evaluates a literal into the store and [reify] reads a tree
    back. *)

From Stdlib Require Import String Ascii List Bool Arith Lia QArith_base.
From Stdlib Require Import ZArith QArith Permutation Sorted.
Import ListNotations.
Local Close Scope Q_scope.
Local Open Scope string_scope.
Local Open Scope list_scope.

(** ** Values *)

(** The functions defined by the configuration file. *)
Inductive func : Type :=
| FBaiduPlugin
| FInjectHtmlTags.

(** A JavaScript value read as a tree.  [VExtern] is a value owned by a
    third-party module (the export of a [require]d package), opaque here.
    Strings are kept as the UTF-8 bytes of the source file. *)
#[local] Unset Elimination Schemes.
Inductive value : Type :=
| VUndefined
| VNull
| VBool (b : bool)
| VNum (q : Q)
| VStr (s : string)
| VArr (items : list value)
| VObj (props : list (string * value))
| VFun (f : func)
| VExtern (name : string).
#[local] Set Elimination Schemes.

(** Completions: a call or the evaluation of the module either returns or
    throws. *)
Inductive error : Type :=
| TypeError
| ModuleNotFound (request : string).

Inductive result (A : Type) : Type :=
| Normal (a : A)
| Throw (e : error).
Arguments Normal {A} a.
Arguments Throw {A} e.

Definition bind {A B : Type} (r : result A) (k : A -> result B) : result B :=
  match r with
  | Normal a => k a
  | Throw e => Throw e
  end.

Notation "x <- c ;; k" := (bind c (fun x => k))
  (at level 61, c at next level, right associativity).

(** ** Reading a tree *)

Fixpoint lookup {A : Type} (k : string) (props : list (string * A)) : option A :=
  match props with
  | [] => None
  | (k', v) :: rest => if String.eqb k k' then Some v else lookup k rest
  end.

(** [o.k]: the property [k] of an object, [undefined] when there is none. *)
Definition get (v : value) (k : string) : value :=
  match v with
  | VObj props =>
      match lookup k props with
      | Some x => x
      | None => VUndefined
      end
  | _ => VUndefined
  end.

(** [a[i]]: the item [i] of an array, [undefined] out of range. *)
Definition item (v : value) (i : nat) : value :=
  match v with
  | VArr items => nth i items VUndefined
  | _ => VUndefined
  end.

(** [k in o] for an own property. *)
Definition has (v : value) (k : string) : bool :=
  match v with
  | VObj props =>
      match lookup k props with
      | Some _ => true
      | None => false
      end
  | _ => false
  end.

(** [Object.keys(o)]. *)
Definition keys (v : value) : list string :=
  match v with
  | VObj props => map fst props
  | _ => []
  end.

(** A string of length greater than zero. *)
Definition nonempty_string (v : value) : bool :=
  match v with
  | VStr s => negb (String.eqb s "")
  | _ => false
  end.

(** ** The module *)

(** The double quote, for the literals that contain it. *)
Definition dquote : string := String "034"%char EmptyString.

(** The tag of [injectHtmlTags], line 89 of the source. *)
Definition baidu_tag : string :=
  ("<script type=" ++ dquote ++ "text/javascript" ++ dquote
   ++ " src=" ++ dquote
   ++ "https://hm.baidu.com/hm.js?b3f6e7ec9302021671173e3fad14f4cd"
   ++ dquote ++ "></script>")%string.

(** What the module obtains from its host while it is evaluated: the four
    [require]d exports of lines 4 to 7 and the three paths returned by
    [require.resolve] inside the literal. *)
Record Requires : Type := {
  lightCodeTheme : value;
  darkCodeTheme : value;
  math : value;
  katex : value;
  sidebarPath : string;
  customCss : string;
  searchLocal : string
}.

Definition keywords : string :=
  "Python, 编程, 经验, 教程, 开源, 免费, 电子书, 下载, PDF, 示例, 面试".

(** The options of the search plugin, lines 97 to 102. *)
Definition search_options : value :=
  VObj [
    ("hashed", VBool true);
    ("language", VArr [VStr "en"; VStr "zh"]);
    ("docsRouteBasePath", VStr "/");
    ("highlightSearchTermsOnTargetPage", VBool true)
  ].

(** The object literal of lines 10 to 115. *)
Definition config (r : Requires) : value :=
  VObj [
    ("title", VStr "Python 教程");
    ("tagline", VStr keywords);
    ("url", VStr "https://py.qizhen.xyz");
    ("baseUrl", VStr "/");
    ("onBrokenLinks", VStr "throw");
    ("onBrokenMarkdownLinks", VStr "warn");
    ("favicon", VStr "img/favicon.ico");
    ("projectName", VStr "python_book");
    ("presets", VArr [
      VArr [
        VStr "classic";
        VObj [
          ("docs", VObj [
            ("sidebarPath", VStr (sidebarPath r));
            ("sidebarCollapsed", VBool false);
            ("editUrl", VStr "https://github.com/ruanqizhen/python_book/edit/main/");
            ("routeBasePath", VStr "/");
            ("path", VStr "./docs");
            ("remarkPlugins", VArr [math r]);
            ("rehypePlugins", VArr [katex r])
          ]);
          ("blog", VBool false);
          ("theme", VObj [
            ("customCss", VStr (customCss r))
          ]);
          ("sitemap", VObj [
            ("changefreq", VStr "weekly");
            ("priority", VNum (1 # 2)%Q)
          ]);
          ("gtag", VObj [
            ("trackingID", VStr "G-9EFRGQK2N0")
          ])
        ]
      ]
    ]);
    ("themeConfig", VObj [
      ("docs", VObj [
        ("sidebar", VObj [
          ("hideable", VBool true)
        ])
      ]);
      ("colorMode", VObj [
        ("defaultMode", VStr "light");
        ("disableSwitch", VBool false);
        ("respectPrefersColorScheme", VBool true)
      ]);
      ("navbar", VObj [
        ("hideOnScroll", VBool true);
        ("title", VStr "Python 教程");
        ("logo", VObj [
          ("alt", VStr "Python");
          ("src", VStr "img/logo.png");
          ("href", VStr "/")
        ])
      ]);
      ("prism", VObj [
        ("theme", lightCodeTheme r);
        ("darkTheme", darkCodeTheme r)
      ]);
      ("zoomSelector", VStr ".markdown img");
      ("metadata", VArr [
        VObj [("name", VStr "keywords"); ("content", VStr keywords)];
        VObj [("name", VStr "description"); ("content", VStr "Python 学习 面试")];
        VObj [("name", VStr "author"); ("content", VStr "Qizhen Ruan 阮奇桢")]
      ])
    ]);
    ("plugins", VArr [
      VFun FBaiduPlugin;
      VArr [
        VStr (searchLocal r);
        search_options
      ];
      VStr "./src/plugin/plugin-image-zoom"
    ]);
    ("stylesheets", VArr [
      VObj [
        ("href", VStr "https://cdn.jsdelivr.net/npm/katex@0.13.24/dist/katex.min.css");
        ("type", VStr "text/css");
        ("integrity", VStr "sha384-odtC+0UGzzFL/6PNoE8rX/SPcQDXBJ+uRepguP4QkPCm2LBxH3FA3y+fKSiJ+AmM");
        ("crossorigin", VStr "anonymous")
      ]
    ])
  ].

(** The host of the module: CommonJS [require] and [require.resolve], which
    throw when the request cannot be resolved. *)
Record Host : Type := {
  host_require : string -> option value;
  host_resolve : string -> option string
}.

Definition require (host : Host) (request : string) : result value :=
  match host_require host request with
  | Some v => Normal v
  | None => Throw (ModuleNotFound request)
  end.

Definition require_resolve (host : Host) (request : string) : result string :=
  match host_resolve host request with
  | Some p => Normal p
  | None => Throw (ModuleNotFound request)
  end.

(** What the module obtains from the host, in the order the source asks
    for it: lines 4 to 7, then lines 25, 36 and 96 as the literal is
    evaluated from top to bottom. *)
Definition requires (host : Host) : result Requires :=
  light <- require host "prism-react-renderer/themes/github" ;;
  dark <- require host "prism-react-renderer/themes/dracula" ;;
  m <- require host "remark-math" ;;
  k <- require host "rehype-katex" ;;
  sidebars <- require_resolve host "./sidebars.js" ;;
  css <- require_resolve host "./src/css/custom.css" ;;
  search <- require_resolve host "@easyops-cn/docusaurus-search-local" ;;
  Normal {| lightCodeTheme := light; darkCodeTheme := dark; math := m;
            katex := k; sidebarPath := sidebars; customCss := css;
            searchLocal := search |}.

(** [module.exports] after the module has been evaluated (line 117). *)
Definition module_exports (host : Host) : result value :=
  r <- requires host ;;
  Normal (config r).

(** ** The store *)

(** Objects and arrays live in a store and are held by reference; a
    location is an index of the store.  The store only grows: nothing in
    this file removes a cell.  A cell holds data properties only, as every
    object of the configuration file and the argument object of the
    framework's hook do; accessors and proxies are outside the model. *)
Definition loc : Type := nat.

Inductive hval : Type :=
| HUndefined
| HNull
| HBool (b : bool)
| HNum (q : Q)
| HStr (s : string)
| HFun (f : func)
| HExtern (name : string)
| HRef (l : loc).

Inductive cell : Type :=
| CArr (items : list hval)
| CObj (props : list (string * hval)).

Definition heap : Type := list cell.

Definition new_cell (c : cell) (h : heap) : hval * heap :=
  (HRef (length h), h ++ [c]).

(** Evaluation of a literal: the parts are evaluated from left to right,
    every array and object literal makes one new cell. *)
Fixpoint alloc (v : value) (h : heap) : hval * heap :=
  match v with
  | VUndefined => (HUndefined, h)
  | VNull => (HNull, h)
  | VBool b => (HBool b, h)
  | VNum q => (HNum q, h)
  | VStr s => (HStr s, h)
  | VFun f => (HFun f, h)
  | VExtern name => (HExtern name, h)
  | VArr items =>
      let '(xs, h') :=
        (fix go (l : list value) (h : heap) : list hval * heap :=
           match l with
           | [] => ([], h)
           | v :: rest =>
               let '(x, h1) := alloc v h in
               let '(xs, h2) := go rest h1 in
               (x :: xs, h2)
           end) items h in
      new_cell (CArr xs) h'
  | VObj props =>
      let '(xs, h') :=
        (fix go (l : list (string * value)) (h : heap)
           : list (string * hval) * heap :=
           match l with
           | [] => ([], h)
           | (k, v) :: rest =>
               let '(x, h1) := alloc v h in
               let '(xs, h2) := go rest h1 in
               ((k, x) :: xs, h2)
           end) props h in
      new_cell (CObj xs) h'
  end.

Fixpoint alloc_items (l : list value) (h : heap) : list hval * heap :=
  match l with
  | [] => ([], h)
  | v :: rest =>
      let '(x, h1) := alloc v h in
      let '(xs, h2) := alloc_items rest h1 in
      (x :: xs, h2)
  end.

Fixpoint alloc_props (l : list (string * value)) (h : heap)
  : list (string * hval) * heap :=
  match l with
  | [] => ([], h)
  | (k, v) :: rest =>
      let '(x, h1) := alloc v h in
      let '(xs, h2) := alloc_props rest h1 in
      ((k, x) :: xs, h2)
  end.

Fixpoint traverse {A B : Type} (f : A -> option B) (l : list A)
  : option (list B) :=
  match l with
  | [] => Some []
  | a :: rest =>
      match f a, traverse f rest with
      | Some b, Some bs => Some (b :: bs)
      | _, _ => None
      end
  end.

(** Reading a tree back from the store.  [fuel] bounds the number of
    references followed on a path, since a store may hold cycles. *)
Fixpoint reify (fuel : nat) (h : heap) (x : hval) : option value :=
  match x with
  | HUndefined => Some VUndefined
  | HNull => Some VNull
  | HBool b => Some (VBool b)
  | HNum q => Some (VNum q)
  | HStr s => Some (VStr s)
  | HFun f => Some (VFun f)
  | HExtern name => Some (VExtern name)
  | HRef l =>
      match fuel with
      | O => None
      | S n =>
          match nth_error h l with
          | None => None
          | Some (CArr items) =>
              option_map VArr (traverse (reify n h) items)
          | Some (CObj props) =>
              option_map VObj
                (traverse
                   (fun kx : string * hval =>
                      option_map (pair (fst kx)) (reify n h (snd kx)))
                   props)
          end
      end
  end.

(** The number of nested array and object literals of a tree. *)
Fixpoint depth (v : value) : nat :=
  match v with
  | VArr items => S (fold_right (fun v n => Nat.max (depth v) n) 0 items)
  | VObj props =>
      S (fold_right (fun kv n => Nat.max (depth (snd kv)) n) 0 props)
  | _ => 0
  end.

(** ** The functions of the module *)

(** The argument [n] of a call: [undefined] when fewer were passed. *)
Definition arg (n : nat) (args : list hval) : hval := nth n args HUndefined.

(** RequireObjectCoercible: everything but [undefined] and [null]. *)
Definition object_coercible (x : hval) : bool :=
  match x with
  | HUndefined | HNull => false
  | _ => true
  end.

(** The value of the property [k] of [x], for a [k] that no built-in
    prototype defines: the own property of an object, [undefined] for an
    array, a function or a primitive. *)
Definition property (h : heap) (x : hval) (k : string) : hval :=
  match x with
  | HRef l =>
      match nth_error h l with
      | Some (CObj props) =>
          match lookup k props with
          | Some v => v
          | None => HUndefined
          end
      | _ => HUndefined
      end
  | _ => HUndefined
  end.

(** The parameter pattern [{k}] on a value of the store: a TypeError on
    [undefined] and [null], the property [k] otherwise.  The values of the
    store are the primitives and the objects, arrays and functions on
    which reading [k] is the read of a plain data property; an argument on
    which the read runs code of the caller (an accessor property, a
    Proxy) is not a value of the store, and nothing below speaks of it. *)
Definition destructure (h : heap) (x : hval) (k : string) : result hval :=
  if object_coercible x then Normal (property h x k) else Throw TypeError.

(** The body of [injectHtmlTags], lines 88 to 91, with [content] bound. *)
Definition injectHtmlTags_body (content : hval) (h : heap)
  : result hval * heap :=
  let '(x, h') := alloc (VObj [("postBodyTags", VArr [VStr baidu_tag])]) h in
  (Normal x, h').

(** [injectHtmlTags({content})], lines 87 to 92. *)
Definition injectHtmlTags (a : hval) (h : heap) : result hval * heap :=
  match destructure h a "content" with
  | Normal content => injectHtmlTags_body content h
  | Throw e => (Throw e, h)
  end.

(** [function baiduPlugin(context, options)], lines 84 to 94. *)
Definition baiduPlugin (context options : hval) (h : heap)
  : result hval * heap :=
  let '(x, h') :=
    alloc (VObj [("name", VStr "baidu-plugin");
                 ("injectHtmlTags", VFun FInjectHtmlTags)]) h in
  (Normal x, h').

(** A call of a function of the module with a list of arguments. *)
Definition call (f : func) (args : list hval) (h : heap)
  : result hval * heap :=
  match f with
  | FBaiduPlugin => baiduPlugin (arg 0 args) (arg 1 args) h
  | FInjectHtmlTags => injectHtmlTags (arg 0 args) h
  end.

(** Any sequence of calls of the functions of the module, whatever they
    return. *)
Fixpoint run (calls : list (func * list hval)) (h : heap) : heap :=
  match calls with
  | [] => h
  | (f, args) :: rest => run rest (snd (call f args h))
  end.

(** The evaluation of the module in a store: the configuration object is
    built and [module.exports] refers to it. *)
Definition load (host : Host) (h : heap) : result hval * heap :=
  match module_exports host with
  | Normal v => let '(x, h') := alloc v h in (Normal x, h')
  | Throw e => (Throw e, h)
  end.

(** A host where the requests of the module resolve and no other does. *)
Definition node_host : Host := {|
  host_require := fun request =>
    if existsb (String.eqb request)
         ["prism-react-renderer/themes/github";
          "prism-react-renderer/themes/dracula";
          "remark-math"; "rehype-katex"]
    then Some (VExtern request) else None;
  host_resolve := fun request =>
    lookup request
      [("./sidebars.js", "/site/sidebars.js");
       ("./src/css/custom.css", "/site/src/css/custom.css");
       ("@easyops-cn/docusaurus-search-local",
        "/site/node_modules/@easyops-cn/docusaurus-search-local/dist/server/server/index.js")]
|}.

(** What [node_host] hands to the module. *)
Definition node_requires : Requires := {|
  lightCodeTheme := VExtern "prism-react-renderer/themes/github";
  darkCodeTheme := VExtern "prism-react-renderer/themes/dracula";
  math := VExtern "remark-math";
  katex := VExtern "rehype-katex";
  sidebarPath := "/site/sidebars.js";
  customCss := "/site/src/css/custom.css";
  searchLocal :=
    "/site/node_modules/@easyops-cn/docusaurus-search-local/dist/server/server/index.js"
|}.

(** The object that [baiduPlugin] returns, read as a tree. *)
Definition plugin_instance : value :=
  VObj [("name", VStr "baidu-plugin");
        ("injectHtmlTags", VFun FInjectHtmlTags)].

(** The cell of that object in the store. *)
Definition plugin_cell : cell :=
  CObj [("name", HStr "baidu-plugin");
        ("injectHtmlTags", HFun FInjectHtmlTags)].

(** The object that [injectHtmlTags] returns, read as a tree. *)
Definition injected : value := VObj [("postBodyTags", VArr [VStr baidu_tag])].

(** A store with one object, [{content: "# Python"}], at location 0, and
    a second one, [{content: null, extra: true}], at location 1. *)
Definition sample_heap : heap :=
  [CObj [("content", HStr "# Python")];
   CObj [("content", HNull); ("extra", HBool true)]].

(** The keys that the specification lists for the options of the search
    plugin: language list, hashing flag, route base path. *)
Definition spec_search_keys : list string :=
  ["language"; "hashed"; "docsRouteBasePath"].

(** ** Paths into the configuration *)

(** [config.plugins]. *)
Definition plugins_of (cfg : value) : value := get cfg "plugins".

(** [config.plugins[1][1]], the options handed to the search plugin. *)
Definition search_options_of (cfg : value) : value :=
  item (item (plugins_of cfg) 1) 1.

(** [config.presets[0][1].docs], the options of the docs preset. *)
Definition docs_options_of (cfg : value) : value :=
  get (item (item (get cfg "presets") 0) 1) "docs".

(** ** Relations on stores *)

(** [h'] holds every cell of [h], at the same location. *)
Definition extends (h h' : heap) : Prop := exists ext, h' = h ++ ext.

(** [alloc] on [v] leaves the cells of the store in place and makes a value
    that reads back as [v], in the store it returns and in every larger
    one. *)
Definition alloc_ok (v : value) : Prop :=
  forall h x h', alloc v h = (x, h') ->
    extends h h' /\
    forall n h'', depth v <= n -> extends h' h'' -> reify n h'' x = Some v.

(** ** How the framework reaches the functions *)

(** [a[i]] in the store: the item [i] of an array, [undefined] out of
    range or when [x] is no array. *)
Definition element (h : heap) (x : hval) (i : nat) : hval :=
  match x with
  | HRef l =>
      match nth_error h l with
      | Some (CArr items) => nth i items HUndefined
      | _ => HUndefined
      end
  | _ => HUndefined
  end.

(** [f(...args)] for a value of the store: a TypeError when [f] is not a
    function, the call of the function otherwise. *)
Definition invoke (f : hval) (args : list hval) (h : heap)
  : result hval * heap :=
  match f with
  | HFun g => call g args h
  | _ => (Throw TypeError, h)
  end.

(** ** The requests of the module *)

(** A request to the host: [require(name)] or [require.resolve(name)]. *)
Inductive request : Type :=
| Require_ (name : string)
| Resolve (name : string).

Definition request_name (rq : request) : string :=
  match rq with
  | Require_ name => name
  | Resolve name => name
  end.

(** The requests of the module in the order it makes them: lines 4, 5, 6
    and 7, then lines 25, 36 and 96 inside the literal. *)
Definition module_requests : list request :=
  [Require_ "prism-react-renderer/themes/github";
   Require_ "prism-react-renderer/themes/dracula";
   Require_ "remark-math";
   Require_ "rehype-katex";
   Resolve "./sidebars.js";
   Resolve "./src/css/custom.css";
   Resolve "@easyops-cn/docusaurus-search-local"].

(** Whether the host answers a request. *)
Definition resolves (host : Host) (rq : request) : bool :=
  match rq with
  | Require_ name =>
      match host_require host name with Some _ => true | None => false end
  | Resolve name =>
      match host_resolve host name with Some _ => true | None => false end
  end.

(** A host that lacks the package [rehype-katex] and the file
    [./sidebars.js]. *)
Definition broken_host : Host := {|
  host_require := fun name =>
    if String.eqb name "rehype-katex" then None
    else host_require node_host name;
  host_resolve := fun name =>
    if String.eqb name "./sidebars.js" then None
    else host_resolve node_host name
|}.

(** * The classes of docs/magic_methods.md *)

(** Python integers are unbounded: they are [Z].  A method that changes
    its object returns the new state of the object. *)
Module Py.

(** The exceptions that the classes raise, by themselves or through a
    list operation. *)
Inductive exception : Type :=
| ValueError (msg : string)
| IndexError.

Inductive outcome (A : Type) : Type :=
| Return (a : A)
| Raise (e : exception).
Arguments Return {A} a.
Arguments Raise {A} e.

End Py.

(** ** [class Fraction], lines 101 to 131 and 159 to 185 *)
Module Fraction.
Import Py.
Local Open Scope Z_scope.

Record t : Type := { numerator : Z; denominator : Z }.

(** [__init__(self, numerator, denominator=1)]: [math.gcd] is never
    negative and is not zero here, so [//] divides by a positive number,
    where it is [Z.div]. *)
Definition init (numerator denominator : Z) : outcome t :=
  if denominator =? 0 then Raise (ValueError "Denominator cannot be zero.")
  else
    let common := Z.gcd numerator denominator in
    Return {| numerator := numerator / common;
              denominator := denominator / common |}.

Definition add (self other : t) : outcome t :=
  let new_numerator :=
    numerator self * denominator other + numerator other * denominator self in
  let new_denominator := denominator self * denominator other in
  init new_numerator new_denominator.

Definition sub (self other : t) : outcome t :=
  let new_numerator :=
    numerator self * denominator other - numerator other * denominator self in
  let new_denominator := denominator self * denominator other in
  init new_numerator new_denominator.

Definition mul (self other : t) : outcome t :=
  let new_numerator := numerator self * numerator other in
  let new_denominator := denominator self * denominator other in
  init new_numerator new_denominator.

Definition truediv (self other : t) : outcome t :=
  let new_numerator := numerator self * denominator other in
  let new_denominator := denominator self * numerator other in
  init new_numerator new_denominator.

Definition eq (self other : t) : bool :=
  (numerator self =? numerator other)
  && (denominator self =? denominator other).

Definition lt (self other : t) : bool :=
  numerator self * denominator other <? numerator other * denominator self.

Definition le (self other : t) : bool :=
  numerator self * denominator other <=? numerator other * denominator self.

Definition gt (self other : t) : bool :=
  numerator self * denominator other >? numerator other * denominator self.

Definition ge (self other : t) : bool :=
  numerator self * denominator other >=? numerator other * denominator self.

(** The rational number that a fraction stands for. *)
Definition to_Q (f : t) : Q :=
  (inject_Z (numerator f) / inject_Z (denominator f))%Q.

(** What [__init__] establishes: a denominator that is not zero and no
    common factor. *)
Definition reduced (f : t) : Prop :=
  denominator f <> 0 /\ Z.gcd (numerator f) (denominator f) = 1.

End Fraction.

(** ** [class SortedList], lines 256 to 284 *)
Module SortedList.
Import Py.
Local Open Scope Z_scope.

(** [sorted] and [list.sort] on integers: the ascending arrangement of the
    list, built here by insertion. *)
Fixpoint insert (v : Z) (l : list Z) : list Z :=
  match l with
  | [] => [v]
  | x :: rest => if v <=? x then v :: l else x :: insert v rest
  end.

Definition sort (l : list Z) : list Z := fold_right insert [] l.

(** The position that a list of length [len] gives to [index]: counted
    from the end when [index] is negative, none out of range. *)
Definition position (len : nat) (index : Z) : option nat :=
  if (0 <=? index) && (index <? Z.of_nat len) then Some (Z.to_nat index)
  else if (index <? 0) && (- Z.of_nat len <=? index)
       then Some (Z.to_nat (index + Z.of_nat len))
       else None.

(** [l[k] = v] and [del l[k]] at a position. *)
Fixpoint update (k : nat) (v : Z) (l : list Z) : list Z :=
  match l, k with
  | [], _ => []
  | _ :: rest, O => v :: rest
  | x :: rest, S k' => x :: update k' v rest
  end.

Fixpoint remove_at (k : nat) (l : list Z) : list Z :=
  match l, k with
  | [], _ => []
  | _ :: rest, O => rest
  | x :: rest, S k' => x :: remove_at k' rest
  end.

Record t : Type := { data : list Z }.

Definition init (initial_data : list Z) : t :=
  {| data := sort initial_data |}.

Definition len (self : t) : Z := Z.of_nat (length (data self)).

Definition getitem (self : t) (index : Z) : outcome Z :=
  match position (length (data self)) index with
  | Some k =>
      match nth_error (data self) k with
      | Some x => Return x
      | None => Raise IndexError
      end
  | None => Raise IndexError
  end.

Definition setitem (self : t) (index value : Z) : outcome t :=
  match position (length (data self)) index with
  | Some k => Return {| data := sort (update k value (data self)) |}
  | None => Raise IndexError
  end.

Definition delitem (self : t) (index : Z) : outcome t :=
  match position (length (data self)) index with
  | Some k => Return {| data := remove_at k (data self) |}
  | None => Raise IndexError
  end.

Definition contains (self : t) (value : Z) : bool :=
  existsb (Z.eqb value) (data self).

Definition append (self : t) (value : Z) : t :=
  {| data := sort (data self ++ [value]) |}.

(** The operations that change a list, and a program that applies them
    one after the other, going on after an operation that raised. *)
Inductive operation : Type :=
| Append (value : Z)
| SetItem (index value : Z)
| DelItem (index : Z).

Definition apply (self : t) (op : operation) : outcome t :=
  match op with
  | Append value => Return (append self value)
  | SetItem index value => setitem self index value
  | DelItem index => delitem self index
  end.

Fixpoint apply_all (self : t) (ops : list operation) : t :=
  match ops with
  | [] => self
  | op :: rest =>
      match apply self op with
      | Return self' => apply_all self' rest
      | Raise _ => apply_all self rest
      end
  end.

End SortedList.

(** ** [class Polynomial], lines 353 to 363 *)
Module Polynomial.
Local Open Scope Z_scope.

(** [enumerate(l)]. *)
Definition enumerate {A : Type} (l : list A) : list (nat * A) :=
  combine (seq 0 (length l)) l.

(** [sum(l)]: from 0, adding from left to right. *)
Definition sum (l : list Z) : Z := fold_left Z.add l 0.

(** [__call__(self, x)], line 360.  The exponent is never negative, so
    [**] is the integer power. *)
Definition call (coefficients : list Z) (x : Z) : Z :=
  sum (map (fun ic : nat * Z =>
              let (i, coef) := ic in
              coef * x ^ (Z.of_nat (length coefficients) - Z.of_nat i - 1))
         (enumerate coefficients)).

(** Horner's rule, the highest power first. *)
Definition horner (coefficients : list Z) (x : Z) : Z :=
  fold_left (fun acc coef => acc * x + coef) coefficients 0.

End Polynomial.

(** * Properties *)

(** ** Induction on trees *)

Lemma value_ind (P : value -> Prop)
  (Hundefined : P VUndefined)
  (Hnull : P VNull)
  (Hbool : forall b, P (VBool b))
  (Hnum : forall q, P (VNum q))
  (Hstr : forall s, P (VStr s))
  (Harr : forall items, Forall P items -> P (VArr items))
  (Hobj : forall props, Forall (fun kv => P (snd kv)) props -> P (VObj props))
  (Hfun : forall f, P (VFun f))
  (Hextern : forall name, P (VExtern name)) :
  forall v, P v.
Proof.
  fix IH 1.
  intros [ | | b | q | s | items | props | f | name].
  - exact Hundefined.
  - exact Hnull.
  - apply Hbool.
  - apply Hnum.
  - apply Hstr.
  - apply Harr. induction items as [|v items IHitems]; constructor.
    + apply IH.
    + exact IHitems.
  - apply Hobj. induction props as [|[k v] props IHprops]; constructor.
    + apply IH.
    + exact IHprops.
  - apply Hfun.
  - apply Hextern.
Qed.

(** ** The store only grows *)

Lemma extends_refl h : extends h h.
Proof. exists []. now rewrite app_nil_r. Qed.

Lemma extends_trans h1 h2 h3 :
  extends h1 h2 -> extends h2 h3 -> extends h1 h3.
Proof.
  intros [e1 ->] [e2 ->]. exists (e1 ++ e2). now rewrite app_assoc.
Qed.

Lemma extends_snoc h c : extends h (h ++ [c]).
Proof. now exists [c]. Qed.

Lemma extends_lookup h h' l c :
  extends h h' -> nth_error h l = Some c -> nth_error h' l = Some c.
Proof.
  intros [ext ->] H. rewrite nth_error_app1; auto.
  apply nth_error_Some. congruence.
Qed.

Lemma extends_new h h' c :
  extends (h ++ [c]) h' -> nth_error h' (length h) = Some c.
Proof.
  intros Hext. apply (extends_lookup _ _ _ _ Hext).
  rewrite nth_error_app2, Nat.sub_diag; auto.
Qed.

Lemma alloc_arr items h :
  alloc (VArr items) h =
  let '(xs, h') := alloc_items items h in new_cell (CArr xs) h'.
Proof. reflexivity. Qed.

Lemma alloc_obj props h :
  alloc (VObj props) h =
  let '(xs, h') := alloc_props props h in new_cell (CObj xs) h'.
Proof. reflexivity. Qed.

(** ** Reading back what a literal built *)

Lemma depth_items_le items n :
  fold_right (fun v m => Nat.max (depth v) m) 0 items <= n ->
  Forall (fun v => depth v <= n) items.
Proof.
  induction items as [|v items IH]; simpl; intros H; constructor.
  - lia.
  - apply IH. lia.
Qed.

Lemma depth_props_le (props : list (string * value)) n :
  fold_right (fun kv m => Nat.max (depth (snd kv)) m) 0 props <= n ->
  Forall (fun kv => depth (snd kv) <= n) props.
Proof.
  induction props as [|kv props IH]; simpl; intros H; constructor.
  - lia.
  - apply IH. lia.
Qed.

Lemma alloc_items_spec items :
  Forall alloc_ok items ->
  forall h xs h', alloc_items items h = (xs, h') ->
    extends h h' /\
    forall n h'', Forall (fun v => depth v <= n) items -> extends h' h'' ->
      traverse (reify n h'') xs = Some items.
Proof.
  induction 1 as [|v items Hv _ IH]; simpl; intros h xs h' E.
  - injection E as <- <-. split; [apply extends_refl | reflexivity].
  - destruct (alloc v h) as [x h1] eqn:Ev.
    destruct (alloc_items items h1) as [xs' h2] eqn:Eitems.
    injection E as <- <-.
    destruct (Hv _ _ _ Ev) as [Hext1 Hread1].
    destruct (IH _ _ _ Eitems) as [Hext2 Hread2].
    split; [eapply extends_trans; eauto |].
    intros n h'' Hdepth Hext. inversion Hdepth; subst. simpl.
    rewrite Hread1, Hread2; auto.
    eapply extends_trans; eauto.
Qed.

Lemma alloc_props_spec (props : list (string * value)) :
  Forall (fun kv => alloc_ok (snd kv)) props ->
  forall h xs h', alloc_props props h = (xs, h') ->
    extends h h' /\
    forall n h'', Forall (fun kv => depth (snd kv) <= n) props ->
      extends h' h'' ->
      traverse (fun kx : string * hval =>
                  option_map (pair (fst kx)) (reify n h'' (snd kx))) xs
      = Some props.
Proof.
  induction 1 as [|[k v] props Hv _ IH]; simpl; intros h xs h' E.
  - injection E as <- <-. split; [apply extends_refl | reflexivity].
  - destruct (alloc v h) as [x h1] eqn:Ev.
    destruct (alloc_props props h1) as [xs' h2] eqn:Eprops.
    injection E as <- <-.
    destruct (Hv _ _ _ Ev) as [Hext1 Hread1].
    destruct (IH _ _ _ Eprops) as [Hext2 Hread2].
    split; [eapply extends_trans; eauto |].
    intros n h'' Hdepth Hext. inversion Hdepth; subst. simpl in *.
    rewrite Hread1, Hread2; auto.
    eapply extends_trans; eauto.
Qed.

Lemma alloc_spec v : alloc_ok v.
Proof.
  induction v as [ | | b | q | s | items IH | props IH | f | name]
    using value_ind; intros h x h' E;
    try (simpl in E; injection E as <- <-;
         split; [apply extends_refl | intros [|n] h'' _ _; reflexivity]).
  - rewrite alloc_arr in E.
    destruct (alloc_items items h) as [xs h1] eqn:Eitems.
    unfold new_cell in E. injection E as <- <-.
    destruct (alloc_items_spec _ IH _ _ _ Eitems) as [Hext Hread].
    split; [eapply extends_trans; [exact Hext | apply extends_snoc] |].
    intros [|n] h'' Hdepth Hext'; simpl in Hdepth; [lia |].
    simpl. rewrite (extends_new _ _ _ Hext').
    rewrite Hread; [reflexivity | apply depth_items_le; lia |].
    eapply extends_trans; [apply extends_snoc | exact Hext'].
  - rewrite alloc_obj in E.
    destruct (alloc_props props h) as [xs h1] eqn:Eprops.
    unfold new_cell in E. injection E as <- <-.
    destruct (alloc_props_spec _ IH _ _ _ Eprops) as [Hext Hread].
    split; [eapply extends_trans; [exact Hext | apply extends_snoc] |].
    intros [|n] h'' Hdepth Hext'; simpl in Hdepth; [lia |].
    simpl. rewrite (extends_new _ _ _ Hext').
    rewrite Hread; [reflexivity | apply depth_props_le; lia |].
    eapply extends_trans; [apply extends_snoc | exact Hext'].
Qed.

Lemma alloc_extends v h : extends h (snd (alloc v h)).
Proof.
  destruct (alloc v h) as [x h'] eqn:E. exact (proj1 (alloc_spec v _ _ _ E)).
Qed.

Lemma alloc_reify v h n h'' :
  depth v <= n -> extends (snd (alloc v h)) h'' ->
  reify n h'' (fst (alloc v h)) = Some v.
Proof.
  destruct (alloc v h) as [x h'] eqn:E.
  exact (proj2 (alloc_spec v _ _ _ E) n h'').
Qed.

(** ** The functions of the module write to no cell *)

Lemma injectHtmlTags_body_eq content h :
  injectHtmlTags_body content h =
  (Normal (fst (alloc injected h)), snd (alloc injected h)).
Proof.
  unfold injectHtmlTags_body. fold injected.
  now destruct (alloc injected h).
Qed.

Lemma injectHtmlTags_returns a h :
  object_coercible a = true ->
  injectHtmlTags a h =
  (Normal (fst (alloc injected h)), snd (alloc injected h)).
Proof.
  intros Ha. unfold injectHtmlTags, destructure. rewrite Ha.
  apply injectHtmlTags_body_eq.
Qed.

Lemma injectHtmlTags_throws a h :
  object_coercible a = false -> injectHtmlTags a h = (Throw TypeError, h).
Proof.
  intros Ha. unfold injectHtmlTags, destructure. now rewrite Ha.
Qed.

Lemma baiduPlugin_returns context options h :
  baiduPlugin context options h =
  (Normal (fst (alloc plugin_instance h)), snd (alloc plugin_instance h)).
Proof.
  unfold baiduPlugin. fold plugin_instance.
  now destruct (alloc plugin_instance h).
Qed.

Lemma call_extends f args h : extends h (snd (call f args h)).
Proof.
  destruct f; unfold call.
  - rewrite baiduPlugin_returns. apply alloc_extends.
  - destruct (object_coercible (arg 0 args)) eqn:Ha.
    + rewrite injectHtmlTags_returns by exact Ha. apply alloc_extends.
    + rewrite injectHtmlTags_throws by exact Ha. apply extends_refl.
Qed.

Lemma run_extends calls : forall h, extends h (run calls h).
Proof.
  induction calls as [|[f args] calls IH]; intros h; simpl.
  - apply extends_refl.
  - eapply extends_trans; [apply call_extends | apply IH].
Qed.

(** ** The evaluation of the module *)

Lemma bind_normal {A B : Type} (c : result A) (k : A -> result B) b :
  bind c k = Normal b -> exists a, c = Normal a /\ k a = Normal b.
Proof. destruct c as [a|e]; simpl; [eauto | discriminate]. Qed.

Lemma require_resolve_normal host request p :
  require_resolve host request = Normal p ->
  host_resolve host request = Some p.
Proof.
  unfold require_resolve. destruct (host_resolve host request); congruence.
Qed.

Lemma requires_searchLocal host r :
  requires host = Normal r ->
  host_resolve host "@easyops-cn/docusaurus-search-local"
  = Some (searchLocal r).
Proof.
  unfold requires. intros H.
  repeat (apply bind_normal in H; destruct H as [? [? H]]).
  injection H as <-. simpl. now apply require_resolve_normal.
Qed.

Lemma module_exports_config host cfg :
  module_exports host = Normal cfg ->
  exists r, requires host = Normal r /\ cfg = config r.
Proof.
  unfold module_exports. intros H.
  apply bind_normal in H. destruct H as [r [Hr H]].
  injection H as <-. eauto.
Qed.

(** The module is evaluated to a configuration whenever the host resolves
    its seven requests. *)
Lemma module_exports_returns host light dark m k sidebars css search :
  host_require host "prism-react-renderer/themes/github" = Some light ->
  host_require host "prism-react-renderer/themes/dracula" = Some dark ->
  host_require host "remark-math" = Some m ->
  host_require host "rehype-katex" = Some k ->
  host_resolve host "./sidebars.js" = Some sidebars ->
  host_resolve host "./src/css/custom.css" = Some css ->
  host_resolve host "@easyops-cn/docusaurus-search-local" = Some search ->
  module_exports host =
  Normal (config {| lightCodeTheme := light; darkCodeTheme := dark;
                    math := m; katex := k; sidebarPath := sidebars;
                    customCss := css; searchLocal := search |}).
Proof.
  intros H1 H2 H3 H4 H5 H6 H7.
  unfold module_exports, requires, require, require_resolve.
  now rewrite H1, H2, H3, H4, H5, H6, H7.
Qed.

Lemma module_exports_node_host :
  module_exports node_host = Normal (config node_requires).
Proof. reflexivity. Qed.

Lemma load_normal host h x h' :
  load host h = (Normal x, h') ->
  exists cfg, module_exports host = Normal cfg /\ alloc cfg h = (x, h').
Proof.
  unfold load. destruct (module_exports host) as [cfg|e]; [|discriminate].
  destruct (alloc cfg h) as [y h1] eqn:E. intros H. injection H as <- <-.
  eauto.
Qed.

(** ** The analytics plugin *)

(** C1: any two invocations of [injectHtmlTags] whose arguments are
    objects (more generally, anything but [undefined] and [null]), in any
    two stores, both return; the objects they return read as the same
    tree, whose tag is the literal of the source; and neither call changes
    a cell of the store it ran in. *)
Theorem injectHtmlTags_argument_independent
  (args1 args2 : list hval) (h1 h2 : heap) :
  object_coercible (arg 0 args1) = true ->
  object_coercible (arg 0 args2) = true ->
  exists x1 h1' x2 h2',
    call FInjectHtmlTags args1 h1 = (Normal x1, h1') /\
    call FInjectHtmlTags args2 h2 = (Normal x2, h2') /\
    extends h1 h1' /\ extends h2 h2' /\
    reify 2 h1' x1 = Some injected /\
    reify 2 h2' x2 = Some injected /\
    item (get injected "postBodyTags") 0 = VStr baidu_tag.
Proof.
  intros Ha1 Ha2.
  exists (fst (alloc injected h1)), (snd (alloc injected h1)),
         (fst (alloc injected h2)), (snd (alloc injected h2)).
  unfold call.
  rewrite (injectHtmlTags_returns _ h1 Ha1), (injectHtmlTags_returns _ h2 Ha2).
  repeat split; try apply alloc_extends;
    apply alloc_reify; auto using extends_refl.
Qed.

Lemma injectHtmlTags_argument_independent_witness :
  object_coercible (arg 0 [HRef 0]) = true /\
  object_coercible (arg 0 [HRef 1; HStr "ignored"]) = true /\
  exists x1 h1' x2 h2',
    call FInjectHtmlTags [HRef 0] sample_heap = (Normal x1, h1') /\
    call FInjectHtmlTags [HRef 1; HStr "ignored"] [] = (Normal x2, h2') /\
    extends sample_heap h1' /\ extends [] h2' /\
    reify 2 h1' x1 = Some injected /\
    reify 2 h2' x2 = Some injected /\
    item (get injected "postBodyTags") 0 = VStr baidu_tag.
Proof.
  split; [reflexivity | split; [reflexivity |]].
  apply (injectHtmlTags_argument_independent
           [HRef 0] [HRef 1; HStr "ignored"] sample_heap []); reflexivity.
Defined.

(** C2, as the code has it: every invocation of [injectHtmlTags] whose
    argument is a primitive other than [undefined] and [null], or an
    object on which [content] is a plain data property or is not defined
    (the values of the store), returns an object whose only property is
    [postBodyTags], an array of one item, which is the string of line 89,
    spelled here character by character (["034"] is the double quote). *)
Theorem injectHtmlTags_postBodyTags (args : list hval) (h : heap) :
  object_coercible (arg 0 args) = true ->
  exists x h' v,
    call FInjectHtmlTags args h = (Normal x, h') /\
    reify 2 h' x = Some v /\
    keys v = ["postBodyTags"] /\
    get v "postBodyTags" =
    VArr [VStr ("<script type="
               ++ String "034"%char
                    ("text/javascript"
                     ++ String "034"%char
                          (" src="
                           ++ String "034"%char
                                ("https://hm.baidu.com/hm.js?b3f6e7ec9302021671173e3fad14f4cd"
                                 ++ String "034"%char "></script>"))))%string].
Proof.
  intros Ha.
  exists (fst (alloc injected h)), (snd (alloc injected h)), injected.
  unfold call. rewrite (injectHtmlTags_returns _ h Ha).
  split; [reflexivity |].
  split; [apply alloc_reify; auto using extends_refl |].
  split; reflexivity.
Qed.

Lemma injectHtmlTags_postBodyTags_witness :
  object_coercible (arg 0 [HRef 0]) = true /\
  exists x h' v,
    call FInjectHtmlTags [HRef 0] sample_heap = (Normal x, h') /\
    reify 2 h' x = Some v /\
    keys v = ["postBodyTags"] /\
    get v "postBodyTags" =
    VArr [VStr ("<script type="
               ++ String "034"%char
                    ("text/javascript"
                     ++ String "034"%char
                          (" src="
                           ++ String "034"%char
                                ("https://hm.baidu.com/hm.js?b3f6e7ec9302021671173e3fad14f4cd"
                                 ++ String "034"%char "></script>"))))%string].
Proof.
  split; [reflexivity |].
  apply (injectHtmlTags_postBodyTags [HRef 0] sample_heap); reflexivity.
Defined.

(** C2 as stated fails: the invocation [injectHtmlTags(null)] returns no
    object, it throws a TypeError. *)
Lemma injectHtmlTags_null_throws :
  call FInjectHtmlTags [HNull] sample_heap = (Throw TypeError, sample_heap).
Proof. reflexivity. Qed.

(** C3, as the code has it: [injectHtmlTags] returns for every argument
    that is a primitive other than [undefined] and [null], or an object
    on which [content] is a plain data property or is not defined (the
    values of the store), and throws a TypeError, leaving the store as it
    was, when the argument is [undefined], [null] or absent; its body
    does not branch: once the parameter is bound it returns, and what it
    returns does not depend on the value bound to [content]. *)
Theorem injectHtmlTags_throws_iff_nullish (args : list hval) (h : heap) :
  call FInjectHtmlTags args h =
    (if object_coercible (arg 0 args)
     then (Normal (fst (alloc injected h)), snd (alloc injected h))
     else (Throw TypeError, h)) /\
  (forall content1 content2,
     injectHtmlTags_body content1 h = injectHtmlTags_body content2 h) /\
  (forall content, exists x h', injectHtmlTags_body content h = (Normal x, h')).
Proof.
  split; [| split].
  - unfold call. destruct (object_coercible (arg 0 args)) eqn:Ha.
    + now apply injectHtmlTags_returns.
    + now apply injectHtmlTags_throws.
  - intros c1 c2. now rewrite !injectHtmlTags_body_eq.
  - intros c. rewrite injectHtmlTags_body_eq. eauto.
Qed.

(** C3 as stated fails: the invocation [injectHtmlTags()], with no
    argument, throws a TypeError. *)
Lemma injectHtmlTags_absent_throws :
  call FInjectHtmlTags [] [] = (Throw TypeError, []).
Proof. reflexivity. Qed.

(** A non-object argument that the callback accepts: the number 5. *)
Example injectHtmlTags_number :
  call FInjectHtmlTags [HNum (5 # 1)] [] =
  (Normal (HRef 1), [CArr [HStr baidu_tag]; CObj [("postBodyTags", HRef 0)]]).
Proof. reflexivity. Qed.

(** ** The configuration object *)

(** C4: the exported configuration object has the properties [title],
    [url] and [baseUrl], and each of them is a string that is not empty. *)
Theorem config_title_url_baseUrl (host : Host) (cfg : value) :
  module_exports host = Normal cfg ->
  has cfg "title" = true /\ nonempty_string (get cfg "title") = true /\
  has cfg "url" = true /\ nonempty_string (get cfg "url") = true /\
  has cfg "baseUrl" = true /\ nonempty_string (get cfg "baseUrl") = true.
Proof.
  intros H. apply module_exports_config in H as [r [_ ->]].
  repeat split; reflexivity.
Qed.

Lemma config_title_url_baseUrl_witness :
  module_exports node_host = Normal (config node_requires) /\
  has (config node_requires) "title" = true /\
  nonempty_string (get (config node_requires) "title") = true /\
  has (config node_requires) "url" = true /\
  nonempty_string (get (config node_requires) "url") = true /\
  has (config node_requires) "baseUrl" = true /\
  nonempty_string (get (config node_requires) "baseUrl") = true.
Proof.
  split; [reflexivity |].
  apply (config_title_url_baseUrl node_host (config node_requires)).
  reflexivity.
Defined.

(** C5: the second plugin entry pairs the resolved path of
    [@easyops-cn/docusaurus-search-local] with an options object in which
    [language] is [["en", "zh"]], [hashed] is [true] and
    [docsRouteBasePath] is ["/"]; the options object is the same in every
    evaluation of the module, whatever the host. *)
Theorem search_plugin_options (host : Host) (cfg : value) :
  module_exports host = Normal cfg ->
  (exists p,
     host_resolve host "@easyops-cn/docusaurus-search-local" = Some p /\
     item (plugins_of cfg) 1 = VArr [VStr p; search_options_of cfg]) /\
  get (search_options_of cfg) "language" = VArr [VStr "en"; VStr "zh"] /\
  get (search_options_of cfg) "hashed" = VBool true /\
  get (search_options_of cfg) "docsRouteBasePath" = VStr "/" /\
  (forall host' cfg',
     module_exports host' = Normal cfg' ->
     search_options_of cfg' = search_options_of cfg).
Proof.
  intros H. apply module_exports_config in H as [r [Hr ->]].
  split; [| repeat split].
  - exists (searchLocal r). split; [now apply requires_searchLocal |].
    reflexivity.
  - intros host' cfg' H'. apply module_exports_config in H' as [r' [_ ->]].
    reflexivity.
Qed.

Lemma search_plugin_options_witness :
  module_exports node_host = Normal (config node_requires) /\
  (exists p,
     host_resolve node_host "@easyops-cn/docusaurus-search-local" = Some p /\
     item (plugins_of (config node_requires)) 1
     = VArr [VStr p; search_options_of (config node_requires)]) /\
  get (search_options_of (config node_requires)) "language"
  = VArr [VStr "en"; VStr "zh"] /\
  get (search_options_of (config node_requires)) "hashed" = VBool true /\
  get (search_options_of (config node_requires)) "docsRouteBasePath"
  = VStr "/" /\
  (forall host' cfg',
     module_exports host' = Normal cfg' ->
     search_options_of cfg' = search_options_of (config node_requires)).
Proof.
  split; [reflexivity |].
  apply (search_plugin_options node_host (config node_requires)).
  reflexivity.
Defined.

(** C6: [onBrokenLinks] is the string ["throw"] and
    [onBrokenMarkdownLinks] is the string ["warn"]. *)
Theorem broken_link_policy (host : Host) (cfg : value) :
  module_exports host = Normal cfg ->
  get cfg "onBrokenLinks" = VStr "throw" /\
  get cfg "onBrokenMarkdownLinks" = VStr "warn".
Proof.
  intros H. apply module_exports_config in H as [r [_ ->]].
  split; reflexivity.
Qed.

Lemma broken_link_policy_witness :
  module_exports node_host = Normal (config node_requires) /\
  get (config node_requires) "onBrokenLinks" = VStr "throw" /\
  get (config node_requires) "onBrokenMarkdownLinks" = VStr "warn".
Proof.
  split; [reflexivity |].
  apply (broken_link_policy node_host (config node_requires)).
  reflexivity.
Defined.

(** C8: [plugins] is an array of exactly three entries, in this order:
    the function [baiduPlugin]; the pair of the resolved path of
    [@easyops-cn/docusaurus-search-local] and its options; the path
    ["./src/plugin/plugin-image-zoom"]. *)
Theorem three_plugins (host : Host) (cfg : value) :
  module_exports host = Normal cfg ->
  exists p,
    host_resolve host "@easyops-cn/docusaurus-search-local" = Some p /\
    plugins_of cfg =
    VArr [VFun FBaiduPlugin;
          VArr [VStr p; search_options];
          VStr "./src/plugin/plugin-image-zoom"].
Proof.
  intros H. apply module_exports_config in H as [r [Hr ->]].
  exists (searchLocal r). split; [now apply requires_searchLocal |].
  reflexivity.
Qed.

Lemma three_plugins_witness :
  module_exports node_host = Normal (config node_requires) /\
  exists p,
    host_resolve node_host "@easyops-cn/docusaurus-search-local" = Some p /\
    plugins_of (config node_requires) =
    VArr [VFun FBaiduPlugin;
          VArr [VStr p; search_options];
          VStr "./src/plugin/plugin-image-zoom"].
Proof.
  split; [reflexivity |].
  apply (three_plugins node_host (config node_requires)). reflexivity.
Defined.

(** C9: [routeBasePath] of the docs preset options, [docsRouteBasePath]
    of the search plugin options and the top-level [baseUrl] are all the
    string ["/"]. *)
Theorem route_base_paths_agree (host : Host) (cfg : value) :
  module_exports host = Normal cfg ->
  get (docs_options_of cfg) "routeBasePath" = VStr "/" /\
  get (search_options_of cfg) "docsRouteBasePath" = VStr "/" /\
  get cfg "baseUrl" = VStr "/".
Proof.
  intros H. apply module_exports_config in H as [r [_ ->]].
  repeat split; reflexivity.
Qed.

Lemma route_base_paths_agree_witness :
  module_exports node_host = Normal (config node_requires) /\
  get (docs_options_of (config node_requires)) "routeBasePath" = VStr "/" /\
  get (search_options_of (config node_requires)) "docsRouteBasePath"
  = VStr "/" /\
  get (config node_requires) "baseUrl" = VStr "/".
Proof.
  split; [reflexivity |].
  apply (route_base_paths_agree node_host (config node_requires)).
  reflexivity.
Defined.

(** C10: the options of the search plugin have exactly four keys,
    [hashed], [language], [docsRouteBasePath] and
    [highlightSearchTermsOnTargetPage]; the last one is [true] and is not
    among the three keys that the specification lists, which are all
    present. *)
Theorem search_options_four_keys (host : Host) (cfg : value) :
  module_exports host = Normal cfg ->
  keys (search_options_of cfg) =
    ["hashed"; "language"; "docsRouteBasePath";
     "highlightSearchTermsOnTargetPage"] /\
  get (search_options_of cfg) "highlightSearchTermsOnTargetPage"
  = VBool true /\
  ~ In "highlightSearchTermsOnTargetPage" spec_search_keys /\
  incl spec_search_keys (keys (search_options_of cfg)).
Proof.
  intros H. apply module_exports_config in H as [r [_ ->]].
  repeat split.
  - unfold spec_search_keys. simpl. intros [E | [E | [E | []]]]; discriminate.
  - intros k Hk. unfold spec_search_keys in Hk. simpl in *.
    intuition auto.
Qed.

Lemma search_options_four_keys_witness :
  module_exports node_host = Normal (config node_requires) /\
  keys (search_options_of (config node_requires)) =
    ["hashed"; "language"; "docsRouteBasePath";
     "highlightSearchTermsOnTargetPage"] /\
  get (search_options_of (config node_requires))
    "highlightSearchTermsOnTargetPage" = VBool true /\
  ~ In "highlightSearchTermsOnTargetPage" spec_search_keys /\
  incl spec_search_keys (keys (search_options_of (config node_requires))).
Proof.
  split; [reflexivity |].
  apply (search_options_four_keys node_host (config node_requires)).
  reflexivity.
Defined.

(** ** The configuration object is not written to *)

Lemma extends_length h h' : extends h h' -> length h <= length h'.
Proof. intros [ext ->]. rewrite length_app. lia. Qed.

Lemma alloc_obj_fresh props h x h' :
  alloc (VObj props) h = (x, h') ->
  exists l, x = HRef l /\ length h <= l < length h'.
Proof.
  rewrite alloc_obj. intros E.
  destruct (alloc_props props h) as [xs h1] eqn:Eprops.
  assert (Hok : Forall (fun kv : string * value => alloc_ok (snd kv)) props)
    by (apply Forall_forall; intros kv _; apply alloc_spec).
  destruct (alloc_props_spec props Hok h xs h1 Eprops) as [Hext _].
  unfold new_cell in E. injection E as <- <-.
  exists (length h1). split; [reflexivity |].
  apply extends_length in Hext. rewrite length_app. simpl. lia.
Qed.

(** C7: the evaluation of the module makes the configuration object in a
    new cell of the store; no sequence of calls of [baiduPlugin] and
    [injectHtmlTags], whatever their arguments, changes a cell that the
    store held before it, so the configuration reads the same after it;
    and a second evaluation of the module, in any store, makes an object
    that reads as the same tree. *)
Theorem config_never_mutated (host : Host) (h : heap) (x : hval) (h1 : heap) :
  load host h = (Normal x, h1) ->
  exists cfg l,
    module_exports host = Normal cfg /\
    x = HRef l /\ length h <= l < length h1 /\
    (forall calls l' c,
       nth_error h1 l' = Some c ->
       nth_error (run calls h1) l' = Some c) /\
    (forall calls, reify (depth cfg) (run calls h1) x = Some cfg) /\
    (forall h2 x2 h2',
       load host h2 = (Normal x2, h2') ->
       reify (depth cfg) h2' x2 = Some cfg).
Proof.
  intros H. destruct (load_normal _ _ _ _ H) as [cfg [Hcfg Halloc]].
  destruct (module_exports_config _ _ Hcfg) as [r [_ Hr]].
  assert (Hfresh : exists l, x = HRef l /\ length h <= l < length h1)
    by (rewrite Hr in Halloc; exact (alloc_obj_fresh _ _ _ _ Halloc)).
  destruct Hfresh as [l [Hx Hl]].
  exists cfg, l. repeat split; try tauto.
  - intros calls l' c Hc.
    exact (extends_lookup _ _ _ _ (run_extends calls h1) Hc).
  - intros calls.
    apply (proj2 (alloc_spec cfg _ _ _ Halloc)); [lia | apply run_extends].
  - intros h2 x2 h2' H2.
    destruct (load_normal _ _ _ _ H2) as [cfg2 [Hcfg2 Halloc2]].
    assert (cfg2 = cfg) as -> by congruence.
    apply (proj2 (alloc_spec cfg _ _ _ Halloc2)); [lia | apply extends_refl].
Qed.

Lemma config_never_mutated_witness :
  load node_host sample_heap
  = (Normal (HRef 28), snd (load node_host sample_heap)) /\
  exists cfg l,
    module_exports node_host = Normal cfg /\
    HRef 28 = HRef l /\
    length sample_heap <= l < length (snd (load node_host sample_heap)) /\
    (forall calls l' c,
       nth_error (snd (load node_host sample_heap)) l' = Some c ->
       nth_error (run calls (snd (load node_host sample_heap))) l' = Some c) /\
    (forall calls,
       reify (depth cfg) (run calls (snd (load node_host sample_heap)))
         (HRef 28) = Some cfg) /\
    (forall h2 x2 h2',
       load node_host h2 = (Normal x2, h2') ->
       reify (depth cfg) h2' x2 = Some cfg).
Proof.
  split; [reflexivity |].
  apply (config_never_mutated node_host sample_heap (HRef 28)
           (snd (load node_host sample_heap))).
  reflexivity.
Defined.

(** * Further properties of the module *)

(** ** Reading the store along a path *)

Lemma reify_undefined n h : reify n h HUndefined = Some VUndefined.
Proof. now destruct n. Qed.

Lemma reify_fun_inv n h x f : reify n h x = Some (VFun f) -> x = HFun f.
Proof.
  destruct x; destruct n; simpl; try congruence.
  destruct (nth_error h l) as [[items|props]|]; try discriminate.
  - destruct (traverse (reify n h) items); discriminate.
  - destruct (traverse _ props); discriminate.
Qed.

Lemma reify_str_inv n h x s : reify n h x = Some (VStr s) -> x = HStr s.
Proof.
  destruct x; destruct n; simpl; try congruence.
  destruct (nth_error h l) as [[items|props]|]; try discriminate.
  - destruct (traverse (reify n h) items); discriminate.
  - destruct (traverse _ props); discriminate.
Qed.

Lemma traverse_lookup n h k (hprops : list (string * hval)) :
  forall props,
    traverse (fun kx : string * hval =>
                option_map (pair (fst kx)) (reify n h (snd kx))) hprops
    = Some props ->
    match lookup k hprops with
    | Some x => exists v, lookup k props = Some v /\ reify n h x = Some v
    | None => lookup k props = None
    end.
Proof.
  induction hprops as [|[k' x] hprops IH]; simpl; intros props E.
  - injection E as <-. reflexivity.
  - destruct (reify n h x) as [v|] eqn:Ex; simpl in E; [|discriminate].
    destruct (traverse _ hprops) as [props'|] eqn:Et; [|discriminate].
    injection E as <-. simpl.
    destruct (String.eqb k k'); [eauto | now apply IH].
Qed.

Lemma traverse_nth n h i (xs : list hval) :
  forall items,
    traverse (reify n h) xs = Some items ->
    reify n h (nth i xs HUndefined) = Some (nth i items VUndefined).
Proof.
  revert i. induction xs as [|x xs IH]; simpl; intros i items E.
  - injection E as <-. destruct i; apply reify_undefined.
  - destruct (reify n h x) as [v|] eqn:Ex; [|discriminate].
    destruct (traverse (reify n h) xs) as [items'|] eqn:Et; [|discriminate].
    injection E as <-. destruct i; simpl; [exact Ex | now apply IH].
Qed.

(** Reading a property in the store and then the tree is reading the tree
    and then the property. *)
Lemma reify_property n h x v k :
  reify (S n) h x = Some v ->
  reify n h (property h x k) = Some (get v k).
Proof.
  destruct x; simpl; intros E; try (injection E as <-; apply reify_undefined).
  destruct (nth_error h l) as [[items|props]|]; try discriminate.
  - destruct (traverse (reify n h) items); [|discriminate].
    injection E as <-. apply reify_undefined.
  - destruct (traverse _ props) as [tprops|] eqn:Et; [|discriminate].
    injection E as <-. simpl.
    pose proof (traverse_lookup n h k props tprops Et) as Hk.
    destruct (lookup k props) as [y|].
    + destruct Hk as [v [-> Hv]]. exact Hv.
    + rewrite Hk. apply reify_undefined.
Qed.

Lemma reify_element n h x v i :
  reify (S n) h x = Some v ->
  reify n h (element h x i) = Some (item v i).
Proof.
  destruct x; simpl; intros E; try (injection E as <-; apply reify_undefined).
  destruct (nth_error h l) as [[items|props]|]; try discriminate.
  - destruct (traverse (reify n h) items) as [titems|] eqn:Et; [|discriminate].
    injection E as <-. simpl. now apply traverse_nth.
  - destruct (traverse _ props); [|discriminate].
    injection E as <-. apply reify_undefined.
Qed.

(** ** [baiduPlugin] *)

Lemma property_new h h' props k :
  extends (h ++ [CObj props]) h' ->
  property h' (HRef (length h)) k =
  match lookup k props with Some v => v | None => HUndefined end.
Proof.
  intros Hext. unfold property. now rewrite (extends_new _ _ _ Hext).
Qed.

Lemma baiduPlugin_call args h :
  call FBaiduPlugin args h = (Normal (HRef (length h)), h ++ [plugin_cell]).
Proof. reflexivity. Qed.

(** X1: [baiduPlugin] returns for every list of arguments, an empty one
    included: it makes one new object, which reads as
    [{name: 'baidu-plugin', injectHtmlTags}], whose [injectHtmlTags] is the
    hook of the module, and it changes no cell of the store. *)
Theorem baiduPlugin_total (args : list hval) (h : heap) :
  exists x h',
    call FBaiduPlugin args h = (Normal x, h') /\
    length h' = S (length h) /\
    extends h h' /\
    nth_error h (length h' - 1) = None /\
    x = HRef (length h' - 1) /\
    reify 1 h' x = Some plugin_instance /\
    property h' x "name" = HStr "baidu-plugin" /\
    property h' x "injectHtmlTags" = HFun FInjectHtmlTags.
Proof.
  exists (HRef (length h)), (h ++ [plugin_cell]).
  assert (Hlen : length (h ++ [plugin_cell]) - 1 = length h)
    by (rewrite length_app; simpl; lia).
  split; [apply baiduPlugin_call |].
  split; [rewrite length_app; simpl; lia |].
  split; [apply extends_snoc |].
  split; [rewrite Hlen; apply nth_error_None; lia |].
  split; [now rewrite Hlen |].
  split.
  { simpl. rewrite (extends_new h _ _ (extends_refl _)). reflexivity. }
  split; unfold plugin_cell;
    rewrite (property_new h _ _ _ (extends_refl _)); reflexivity.
Qed.

(** ** Fresh results *)

Lemma alloc_injected h :
  alloc injected h =
  (HRef (S (length h)),
   (h ++ [CArr [HStr baidu_tag]]) ++ [CObj [("postBodyTags", HRef (length h))]]).
Proof.
  unfold injected. rewrite alloc_obj. simpl. unfold new_cell.
  rewrite length_app. simpl. now rewrite Nat.add_1_r.
Qed.

Lemma injectHtmlTags_normal args h x h' :
  call FInjectHtmlTags args h = (Normal x, h') ->
  x = HRef (S (length h)) /\
  h' = (h ++ [CArr [HStr baidu_tag]])
       ++ [CObj [("postBodyTags", HRef (length h))]].
Proof.
  unfold call. destruct (object_coercible (arg 0 args)) eqn:Ha.
  - rewrite (injectHtmlTags_returns _ h Ha), alloc_injected. simpl.
    intros E. injection E as <- <-. auto.
  - rewrite (injectHtmlTags_throws _ h Ha). discriminate.
Qed.

(** X2: two calls of [injectHtmlTags] in a row return two different objects
    holding two different arrays; none of the four cells was in the store
    before the first call, and the cells that were are unchanged. *)
Theorem injectHtmlTags_fresh_results
  (args1 args2 : list hval) (h : heap) (x1 : hval) (h1 : heap)
  (x2 : hval) (h2 : heap) :
  call FInjectHtmlTags args1 h = (Normal x1, h1) ->
  call FInjectHtmlTags args2 h1 = (Normal x2, h2) ->
  exists l1 a1 l2 a2,
    x1 = HRef l1 /\ property h2 x1 "postBodyTags" = HRef a1 /\
    x2 = HRef l2 /\ property h2 x2 "postBodyTags" = HRef a2 /\
    NoDup [l1; a1; l2; a2] /\
    Forall (fun l => nth_error h l = None) [l1; a1; l2; a2] /\
    (forall l c, nth_error h l = Some c -> nth_error h2 l = Some c).
Proof.
  intros E1 E2.
  apply injectHtmlTags_normal in E1 as [-> ->].
  apply injectHtmlTags_normal in E2 as [-> ->].
  set (A := CArr [HStr baidu_tag]).
  set (h1 := (h ++ [A]) ++ [CObj [("postBodyTags", HRef (length h))]]).
  assert (Hlen : length h1 = S (S (length h)))
    by (unfold h1; rewrite !length_app; simpl; lia).
  exists (S (length h)), (length h), (S (length h1)), (length h1).
  split; [reflexivity |]. split.
  { replace (S (length h)) with (length (h ++ [A]))
      by (rewrite length_app; simpl; lia).
    rewrite (property_new (h ++ [A]) _ [("postBodyTags", HRef (length h))]);
      [reflexivity |].
    eapply extends_trans; [apply extends_snoc | apply extends_snoc]. }
  split; [reflexivity |]. split.
  { replace (S (length h1)) with (length (h1 ++ [A]))
      by (rewrite length_app; simpl; lia).
    rewrite (property_new (h1 ++ [A]) _ [("postBodyTags", HRef (length h1))]);
      [reflexivity | apply extends_refl]. }
  split.
  { rewrite Hlen. repeat constructor; simpl; intuition lia. }
  split.
  { rewrite Hlen. repeat constructor; apply nth_error_None; lia. }
  intros l c Hc. apply (extends_lookup h); [| exact Hc].
  unfold h1, extends. eexists. rewrite <- !app_assoc. reflexivity.
Qed.

Lemma injectHtmlTags_fresh_results_witness :
  call FInjectHtmlTags [HRef 0] sample_heap
  = (Normal (HRef 3), snd (call FInjectHtmlTags [HRef 0] sample_heap)) /\
  call FInjectHtmlTags [HStr "x"]
    (snd (call FInjectHtmlTags [HRef 0] sample_heap))
  = (Normal (HRef 5),
     snd (call FInjectHtmlTags [HStr "x"]
            (snd (call FInjectHtmlTags [HRef 0] sample_heap)))) /\
  exists l1 a1 l2 a2,
    HRef 3 = HRef l1 /\
    property (snd (call FInjectHtmlTags [HStr "x"]
                     (snd (call FInjectHtmlTags [HRef 0] sample_heap))))
      (HRef 3) "postBodyTags" = HRef a1 /\
    HRef 5 = HRef l2 /\
    property (snd (call FInjectHtmlTags [HStr "x"]
                     (snd (call FInjectHtmlTags [HRef 0] sample_heap))))
      (HRef 5) "postBodyTags" = HRef a2 /\
    NoDup [l1; a1; l2; a2] /\
    Forall (fun l => nth_error sample_heap l = None) [l1; a1; l2; a2] /\
    (forall l c,
       nth_error sample_heap l = Some c ->
       nth_error (snd (call FInjectHtmlTags [HStr "x"]
                         (snd (call FInjectHtmlTags [HRef 0] sample_heap))))
         l = Some c).
Proof.
  split; [reflexivity | split; [reflexivity |]].
  apply (injectHtmlTags_fresh_results [HRef 0] [HStr "x"] sample_heap
           (HRef 3) (snd (call FInjectHtmlTags [HRef 0] sample_heap))
           (HRef 5)); reflexivity.
Defined.

(** ** Bounded allocation *)

Lemma call_length f args h :
  length h <= length (snd (call f args h)) <= length h + 2.
Proof.
  destruct f.
  - rewrite baiduPlugin_call. simpl. rewrite length_app. simpl. lia.
  - destruct (call FInjectHtmlTags args h) as [[x|e] h'] eqn:E.
    + apply injectHtmlTags_normal in E as [_ ->]. simpl.
      rewrite !length_app. simpl. lia.
    + unfold call in E. destruct (object_coercible (arg 0 args)) eqn:Ha.
      * rewrite (injectHtmlTags_returns _ h Ha) in E. discriminate.
      * rewrite (injectHtmlTags_throws _ h Ha) in E.
        injection E as _ <-. simpl. lia.
Qed.

(** X3: a sequence of calls of the functions of the module makes at most two
    cells per call, and none when it is empty. *)
Theorem run_allocation_bound (calls : list (func * list hval)) (h : heap) :
  length h <= length (run calls h) <= length h + 2 * length calls.
Proof.
  revert h. induction calls as [|[f args] calls IH]; intros h; simpl.
  - lia.
  - pose proof (call_length f args h) as Hc.
    pose proof (IH (snd (call f args h))) as Hr. lia.
Qed.

(** ** From the exported configuration to the injected tag *)

(** X4: the way the framework uses the module: it reads [plugins[0]] of the
    exported object, which is [baiduPlugin]; calls it with a context and
    options; reads [injectHtmlTags] of the object it gets and calls it with
    a primitive other than [undefined] and [null] or with an object on
    which [content] is a plain data property or is not defined (the
    values of the store).  The result reads as [{postBodyTags: [tag]}]
    with the string of line 89, and the configuration reads afterwards as
    it did before. *)
Theorem plugin_lifecycle
  (host : Host) (h : heap) (cfgref : hval) (h1 : heap)
  (context options a : hval) :
  load host h = (Normal cfgref, h1) ->
  object_coercible a = true ->
  exists cfg inst h2 tags h3,
    module_exports host = Normal cfg /\
    element h1 (property h1 cfgref "plugins") 0 = HFun FBaiduPlugin /\
    invoke (element h1 (property h1 cfgref "plugins") 0)
      [context; options] h1 = (Normal inst, h2) /\
    property h2 inst "name" = HStr "baidu-plugin" /\
    invoke (property h2 inst "injectHtmlTags") [a] h2 = (Normal tags, h3) /\
    reify 2 h3 tags =
    Some (VObj [("postBodyTags",
                 VArr [VStr ("<script type="
               ++ String "034"%char
                    ("text/javascript"
                     ++ String "034"%char
                          (" src="
                           ++ String "034"%char
                                ("https://hm.baidu.com/hm.js?b3f6e7ec9302021671173e3fad14f4cd"
                                 ++ String "034"%char "></script>"))))%string])]) /\
    reify (depth cfg) h3 cfgref = Some cfg.
Proof.
  intros Hload Ha.
  destruct (load_normal _ _ _ _ Hload) as [cfg [Hcfg Halloc]].
  destruct (module_exports_config _ _ Hcfg) as [r [_ Hr]].
  destruct (alloc_spec _ _ _ _ Halloc) as [Hext Hread].
  assert (Hplug : element h1 (property h1 cfgref "plugins") 0
                  = HFun FBaiduPlugin).
  { assert (R : reify (S (S (depth cfg))) h1 cfgref = Some cfg)
      by (apply Hread; [lia | apply extends_refl]).
    apply (reify_property _ _ _ _ "plugins") in R.
    apply (reify_element _ _ _ _ 0) in R.
    rewrite Hr in R. exact (reify_fun_inv _ _ _ _ R). }
  set (h2 := h1 ++ [plugin_cell]).
  exists cfg, (HRef (length h1)), h2,
    (fst (alloc injected h2)), (snd (alloc injected h2)).
  split; [exact Hcfg |].
  split; [exact Hplug |].
  split; [rewrite Hplug; apply baiduPlugin_call |].
  split.
  { unfold h2, plugin_cell.
    now rewrite (property_new h1 _ _ "name" (extends_refl _)). }
  split.
  { unfold h2, plugin_cell.
    rewrite (property_new h1 _ _ "injectHtmlTags" (extends_refl _)).
    cbn [lookup String.eqb Ascii.eqb Bool.eqb invoke call arg nth].
    now rewrite (injectHtmlTags_returns _ _ Ha). }
  split.
  { exact (alloc_reify injected h2 2 _ (Nat.le_refl 2) (extends_refl _)). }
  apply Hread; [lia |].
  eapply extends_trans; [apply extends_snoc | apply alloc_extends].
Qed.

Lemma plugin_lifecycle_witness :
  load node_host sample_heap
  = (Normal (HRef 28), snd (load node_host sample_heap)) /\
  object_coercible (HRef 0) = true /\
  exists cfg inst h2 tags h3,
    module_exports node_host = Normal cfg /\
    element (snd (load node_host sample_heap))
      (property (snd (load node_host sample_heap)) (HRef 28) "plugins") 0
    = HFun FBaiduPlugin /\
    invoke
      (element (snd (load node_host sample_heap))
         (property (snd (load node_host sample_heap)) (HRef 28) "plugins") 0)
      [HUndefined; HNull] (snd (load node_host sample_heap))
    = (Normal inst, h2) /\
    property h2 inst "name" = HStr "baidu-plugin" /\
    invoke (property h2 inst "injectHtmlTags") [HRef 0] h2
    = (Normal tags, h3) /\
    reify 2 h3 tags =
    Some (VObj [("postBodyTags",
                 VArr [VStr ("<script type="
               ++ String "034"%char
                    ("text/javascript"
                     ++ String "034"%char
                          (" src="
                           ++ String "034"%char
                                ("https://hm.baidu.com/hm.js?b3f6e7ec9302021671173e3fad14f4cd"
                                 ++ String "034"%char "></script>"))))%string])]) /\
    reify (depth cfg) h3 (HRef 28) = Some cfg.
Proof.
  split; [reflexivity | split; [reflexivity |]].
  apply (plugin_lifecycle node_host sample_heap (HRef 28)
           (snd (load node_host sample_heap)) HUndefined HNull (HRef 0));
    reflexivity.
Defined.

(** ** What the module asks of its host *)

Lemma require_normal host name v :
  require host name = Normal v -> host_require host name = Some v.
Proof. unfold require. destruct (host_require host name); congruence. Qed.

Lemma requires_normal host r :
  requires host = Normal r ->
  host_require host "prism-react-renderer/themes/github"
  = Some (lightCodeTheme r) /\
  host_require host "prism-react-renderer/themes/dracula"
  = Some (darkCodeTheme r) /\
  host_require host "remark-math" = Some (math r) /\
  host_require host "rehype-katex" = Some (katex r) /\
  host_resolve host "./sidebars.js" = Some (sidebarPath r) /\
  host_resolve host "./src/css/custom.css" = Some (customCss r) /\
  host_resolve host "@easyops-cn/docusaurus-search-local"
  = Some (searchLocal r).
Proof.
  unfold requires. intros H.
  repeat (apply bind_normal in H; destruct H as [? [? H]]).
  injection H as <-. simpl.
  repeat split;
    first [now apply require_normal | now apply require_resolve_normal].
Qed.

(** X5: the module makes its seven requests in the order of the source and
    stops at the first one the host does not answer: it then throws the
    error of that request; when the host answers them all it exports a
    configuration. *)
Theorem module_exports_first_unresolved (host : Host) :
  match find (fun rq => negb (resolves host rq)) module_requests with
  | Some rq => module_exports host = Throw (ModuleNotFound (request_name rq))
  | None => exists r, module_exports host = Normal (config r)
  end.
Proof.
  unfold module_exports, requires, require, require_resolve,
    module_requests, resolves, find.
  repeat
    match goal with
    | |- context [host_require host ?name] =>
        destruct (host_require host name); simpl; [| reflexivity]
    | |- context [host_resolve host ?name] =>
        destruct (host_resolve host name); simpl; [| reflexivity]
    end.
  eauto.
Qed.

(** Two requests of [broken_host] fail; the error is that of the earlier
    one. *)
Example module_exports_broken_host :
  module_exports broken_host = Throw (ModuleNotFound "rehype-katex").
Proof. reflexivity. Qed.

(** X6: every value that the host hands to the module reaches the place of
    the configuration that the source gives it: the [github] theme is the
    light theme and [dracula] the dark one, [remark-math] is the only
    remark plugin and [rehype-katex] the only rehype plugin, and the two
    resolved paths are [sidebarPath] and [customCss]. *)
Theorem host_values_reach_config (host : Host) (cfg : value) :
  module_exports host = Normal cfg ->
  host_require host "prism-react-renderer/themes/github"
  = Some (get (get (get cfg "themeConfig") "prism") "theme") /\
  host_require host "prism-react-renderer/themes/dracula"
  = Some (get (get (get cfg "themeConfig") "prism") "darkTheme") /\
  (exists m, host_require host "remark-math" = Some m /\
             get (docs_options_of cfg) "remarkPlugins" = VArr [m]) /\
  (exists k, host_require host "rehype-katex" = Some k /\
             get (docs_options_of cfg) "rehypePlugins" = VArr [k]) /\
  (exists p, host_resolve host "./sidebars.js" = Some p /\
             get (docs_options_of cfg) "sidebarPath" = VStr p) /\
  (exists p, host_resolve host "./src/css/custom.css" = Some p /\
             get (get (item (item (get cfg "presets") 0) 1) "theme")
               "customCss" = VStr p).
Proof.
  intros H. apply module_exports_config in H as [r [Hr ->]].
  destruct (requires_normal _ _ Hr) as [H1 [H2 [H3 [H4 [H5 [H6 _]]]]]].
  split; [exact H1 |]. split; [exact H2 |].
  split; [exists (math r); split; [exact H3 | reflexivity] |].
  split; [exists (katex r); split; [exact H4 | reflexivity] |].
  split; [exists (sidebarPath r); split; [exact H5 | reflexivity] |].
  exists (customCss r); split; [exact H6 | reflexivity].
Qed.

Lemma host_values_reach_config_witness :
  module_exports node_host = Normal (config node_requires) /\
  host_require node_host "prism-react-renderer/themes/github"
  = Some (get (get (get (config node_requires) "themeConfig") "prism")
            "theme") /\
  host_require node_host "prism-react-renderer/themes/dracula"
  = Some (get (get (get (config node_requires) "themeConfig") "prism")
            "darkTheme") /\
  (exists m, host_require node_host "remark-math" = Some m /\
             get (docs_options_of (config node_requires)) "remarkPlugins"
             = VArr [m]) /\
  (exists k, host_require node_host "rehype-katex" = Some k /\
             get (docs_options_of (config node_requires)) "rehypePlugins"
             = VArr [k]) /\
  (exists p, host_resolve node_host "./sidebars.js" = Some p /\
             get (docs_options_of (config node_requires)) "sidebarPath"
             = VStr p) /\
  (exists p, host_resolve node_host "./src/css/custom.css" = Some p /\
             get (get (item (item (get (config node_requires) "presets") 0) 1)
                    "theme") "customCss" = VStr p).
Proof.
  split; [reflexivity |].
  apply (host_values_reach_config node_host (config node_requires)).
  reflexivity.
Defined.

(** * The classes of docs/magic_methods.md: properties *)

(** ** [Fraction] *)
Section FractionProperties.
Import Py Fraction.
Local Open Scope Z_scope.

Lemma inject_Z_nonzero z : z <> 0 -> ~ (inject_Z z == 0)%Q.
Proof. unfold Qeq, inject_Z. simpl. lia. Qed.

Lemma init_returns n d :
  d <> 0 ->
  init n d = Return {| numerator := n / Z.gcd n d;
                       denominator := d / Z.gcd n d |}.
Proof.
  intros Hd. unfold init. destruct (Z.eqb_spec d 0); [contradiction | reflexivity].
Qed.

Lemma gcd_pos n d : d <> 0 -> 0 < Z.gcd n d.
Proof.
  intros Hd. pose proof (Z.gcd_nonneg n d).
  assert (Z.gcd n d <> 0) by (intros E; apply Z.gcd_eq_0_r in E; contradiction).
  lia.
Qed.

(** [__init__] on a denominator that is not zero. *)
Lemma init_spec n d :
  d <> 0 ->
  exists f,
    init n d = Return f /\ reduced f /\
    (to_Q f == inject_Z n / inject_Z d)%Q /\
    Z.sgn (denominator f) = Z.sgn d.
Proof.
  intros Hd. eexists. split; [apply init_returns; exact Hd |].
  pose proof (gcd_pos n d Hd) as Hg.
  set (g := Z.gcd n d) in *.
  destruct (Z.gcd_divide_l n d) as [n' Hn]. fold g in Hn.
  destruct (Z.gcd_divide_r n d) as [d' Hd']. fold g in Hd'.
  assert (En : n / g = n') by (rewrite Hn; apply Z.div_mul; lia).
  assert (Ed : d / g = d') by (rewrite Hd'; apply Z.div_mul; lia).
  assert (Hd'0 : d' <> 0) by (intros ->; lia).
  unfold reduced, to_Q. simpl. rewrite En, Ed.
  split; [split; [exact Hd'0 |] |]; [| split].
  - rewrite <- En, <- Ed. apply Z.gcd_div_gcd; [lia | reflexivity].
  - rewrite Hn, Hd', !inject_Z_mult. field.
    split; apply inject_Z_nonzero; lia.
  - rewrite Hd'. rewrite Z.sgn_mul. rewrite (Z.sgn_pos g Hg). lia.
Qed.

Lemma to_Q_nonzero f : denominator f <> 0 -> ~ (inject_Z (denominator f) == 0)%Q.
Proof. apply inject_Z_nonzero. Qed.

(** X7: [Fraction(n, d)] raises the ValueError of the source when [d] is
    zero and only then; otherwise the object it makes has a denominator
    that is not zero and of the sign of [d], has no common factor left,
    and stands for the rational [n / d]. *)
Theorem fraction_init (n d : Z) :
  if d =? 0
  then init n d = Raise (ValueError "Denominator cannot be zero.")
  else exists f,
         init n d = Return f /\ reduced f /\
         (to_Q f == inject_Z n / inject_Z d)%Q /\
         Z.sgn (denominator f) = Z.sgn d.
Proof.
  destruct (Z.eqb_spec d 0) as [-> | Hd].
  - reflexivity.
  - now apply init_spec.
Qed.

(** X8: on two fractions whose denominators are not zero, [+], [-] and
    [*] never raise; the result is in lowest terms and stands for the sum,
    the difference and the product of the two rationals. *)
Theorem fraction_arithmetic (a b : t) :
  denominator a <> 0 -> denominator b <> 0 ->
  (exists r, add a b = Return r /\ reduced r /\ (to_Q r == to_Q a + to_Q b)%Q) /\
  (exists r, sub a b = Return r /\ reduced r /\ (to_Q r == to_Q a - to_Q b)%Q) /\
  (exists r, mul a b = Return r /\ reduced r /\ (to_Q r == to_Q a * to_Q b)%Q).
Proof.
  intros Ha Hb.
  assert (Hab : denominator a * denominator b <> 0) by lia.
  pose proof (inject_Z_nonzero _ Ha) as Qa.
  pose proof (inject_Z_nonzero _ Hb) as Qb.
  unfold add, sub, mul. repeat split.
  - destruct (init_spec (numerator a * denominator b + numerator b * denominator a) _ Hab)
      as [r [E [Hr [Hv _]]]].
    exists r. repeat split; try apply Hr; [exact E |].
    rewrite Hv. unfold to_Q.
    rewrite inject_Z_plus, !inject_Z_mult. field. auto.
  - destruct (init_spec (numerator a * denominator b - numerator b * denominator a) _ Hab)
      as [r [E [Hr [Hv _]]]].
    exists r. repeat split; try apply Hr; [exact E |].
    rewrite Hv. unfold to_Q, Z.sub.
    rewrite inject_Z_plus, inject_Z_opp, !inject_Z_mult. field. auto.
  - destruct (init_spec (numerator a * numerator b) _ Hab)
      as [r [E [Hr [Hv _]]]].
    exists r. repeat split; try apply Hr; [exact E |].
    rewrite Hv. unfold to_Q.
    rewrite !inject_Z_mult. field. auto.
Qed.

(** X9: [a / b] raises the ValueError of [__init__] when the numerator of
    [b] is zero and only then; otherwise the result is in lowest terms and
    stands for the quotient of the two rationals. *)
Theorem fraction_truediv (a b : t) :
  denominator a <> 0 -> denominator b <> 0 ->
  if numerator b =? 0
  then truediv a b = Raise (ValueError "Denominator cannot be zero.")
  else exists r, truediv a b = Return r /\ reduced r /\
                 (to_Q r == to_Q a / to_Q b)%Q.
Proof.
  intros Ha Hb. unfold truediv.
  destruct (Z.eqb_spec (numerator b) 0) as [E | Hn].
  - rewrite E, Z.mul_0_r. reflexivity.
  - assert (Hab : denominator a * numerator b <> 0) by lia.
    destruct (init_spec (numerator a * denominator b) _ Hab)
      as [r [E [Hr [Hv _]]]].
    exists r. repeat split; try apply Hr; [exact E |].
    rewrite Hv. unfold to_Q. rewrite !inject_Z_mult. field.
    repeat split; apply inject_Z_nonzero; assumption.
Qed.

Lemma to_Q_scale (f : t) (z : Z) :
  denominator f <> 0 ->
  (to_Q f * (inject_Z (denominator f) * inject_Z z)
   == inject_Z (numerator f * z))%Q.
Proof.
  intros Hf. unfold to_Q. rewrite inject_Z_mult. field.
  now apply inject_Z_nonzero.
Qed.

Lemma to_Q_cross (a b : t) :
  denominator a <> 0 -> denominator b <> 0 ->
  ((to_Q a == to_Q b)%Q <->
   numerator a * denominator b = numerator b * denominator a).
Proof.
  intros Ha Hb.
  pose proof (inject_Z_nonzero _ Ha) as Qa.
  pose proof (inject_Z_nonzero _ Hb) as Qb.
  rewrite <- inject_Z_injective, <- (to_Q_scale a _ Ha), <- (to_Q_scale b _ Hb).
  rewrite (Qmult_comm (inject_Z (denominator b)) (inject_Z (denominator a))).
  split.
  - intros ->. reflexivity.
  - intros H. apply Qmult_inj_r in H; [exact H |].
    intros E. apply Qmult_integral in E. tauto.
Qed.

(** X10: on two fractions in lowest terms with positive denominators,
    [==] holds exactly when they stand for the same rational. *)
Theorem fraction_eq_same_value (a b : t) :
  reduced a -> reduced b -> 0 < denominator a -> 0 < denominator b ->
  (eq a b = true <-> (to_Q a == to_Q b)%Q).
Proof.
  intros [Ha Ga] [Hb Gb] Pa Pb.
  rewrite (to_Q_cross a b Ha Hb). unfold eq.
  rewrite andb_true_iff, !Z.eqb_eq. split.
  - intros [-> ->]. reflexivity.
  - intros H.
    assert (Dab : (denominator a | denominator b)).
    { apply (Z.gauss _ (numerator a)); [| now rewrite Z.gcd_comm].
      exists (numerator b). exact H. }
    assert (Dba : (denominator b | denominator a)).
    { apply (Z.gauss _ (numerator b)); [| now rewrite Z.gcd_comm].
      exists (numerator a). symmetry. exact H. }
    assert (E : denominator a = denominator b)
      by (apply Z.divide_antisym_nonneg; [lia | lia | exact Dab | exact Dba]).
    split; [| exact E].
    rewrite E in H.
    exact (proj1 (Z.mul_cancel_r _ _ (denominator b) Hb) H).
Qed.

Lemma inject_Z_pos z : 0 < z -> (0 < inject_Z z)%Q.
Proof. intros H. change 0%Q with (inject_Z 0). now rewrite <- Zlt_Qlt. Qed.

(** X11: [<] and [<=] compare by cross-multiplication: they agree with the
    order of the rationals when the two denominators have the same sign,
    and give the reverse of it when the signs differ; [>] and [>=] are
    [<] and [<=] with the operands exchanged. *)
Theorem fraction_order (a b : t) :
  denominator a <> 0 -> denominator b <> 0 ->
  (if 0 <? denominator a * denominator b
   then (lt a b = true <-> (to_Q a < to_Q b)%Q) /\
        (le a b = true <-> (to_Q a <= to_Q b)%Q)
   else (lt a b = true <-> (to_Q b < to_Q a)%Q) /\
        (le a b = true <-> (to_Q b <= to_Q a)%Q)) /\
  gt a b = lt b a /\ ge a b = le b a.
Proof.
  intros Ha Hb. split.
  2: { unfold gt, ge, lt, le. rewrite Z.gtb_ltb, Z.geb_leb. split; reflexivity. }
  unfold lt, le.
  pose proof (to_Q_scale a (denominator b) Ha) as Sa.
  pose proof (to_Q_scale b (denominator a) Hb) as Sb.
  rewrite (Qmult_comm (inject_Z (denominator b))) in Sb.
  set (z := (inject_Z (denominator a) * inject_Z (denominator b))%Q) in *.
  destruct (Z.ltb_spec 0 (denominator a * denominator b)) as [P | N];
    rewrite Z.ltb_lt, Z.leb_le.
  - assert (Hz : (0 < z)%Q)
      by (unfold z; rewrite <- inject_Z_mult; now apply inject_Z_pos).
    split.
    + rewrite Zlt_Qlt, <- Sa, <- Sb. now apply Qmult_lt_r.
    + rewrite Zle_Qle, <- Sa, <- Sb. now apply Qmult_le_r.
  - assert (P : 0 < - (denominator a * denominator b)) by nia.
    assert (Hz : (0 < - z)%Q).
    { unfold z. rewrite <- inject_Z_mult, <- inject_Z_opp.
      now apply inject_Z_pos. }
    split.
    + rewrite Z.opp_lt_mono, Zlt_Qlt, !inject_Z_opp, <- Sa, <- Sb.
      setoid_replace (- (to_Q b * z))%Q with (to_Q b * - z)%Q by ring.
      setoid_replace (- (to_Q a * z))%Q with (to_Q a * - z)%Q by ring.
      now apply Qmult_lt_r.
    + rewrite Z.opp_le_mono, Zle_Qle, !inject_Z_opp, <- Sa, <- Sb.
      setoid_replace (- (to_Q b * z))%Q with (to_Q b * - z)%Q by ring.
      setoid_replace (- (to_Q a * z))%Q with (to_Q a * - z)%Q by ring.
      now apply Qmult_le_r.
Qed.

Lemma fraction_arithmetic_witness :
  denominator {| numerator := 3; denominator := 4 |} <> 0 /\
  denominator {| numerator := 5; denominator := 6 |} <> 0 /\
  (exists r, add {| numerator := 3; denominator := 4 |}
               {| numerator := 5; denominator := 6 |} = Return r /\
             reduced r /\
             (to_Q r == to_Q {| numerator := 3; denominator := 4 |}
                        + to_Q {| numerator := 5; denominator := 6 |})%Q) /\
  (exists r, sub {| numerator := 3; denominator := 4 |}
               {| numerator := 5; denominator := 6 |} = Return r /\
             reduced r /\
             (to_Q r == to_Q {| numerator := 3; denominator := 4 |}
                        - to_Q {| numerator := 5; denominator := 6 |})%Q) /\
  (exists r, mul {| numerator := 3; denominator := 4 |}
               {| numerator := 5; denominator := 6 |} = Return r /\
             reduced r /\
             (to_Q r == to_Q {| numerator := 3; denominator := 4 |}
                        * to_Q {| numerator := 5; denominator := 6 |})%Q).
Proof.
  split; [simpl; lia | split; [simpl; lia |]].
  apply (fraction_arithmetic {| numerator := 3; denominator := 4 |}
           {| numerator := 5; denominator := 6 |}); simpl; lia.
Defined.

Lemma fraction_truediv_witness :
  denominator {| numerator := 3; denominator := 4 |} <> 0 /\
  denominator {| numerator := 5; denominator := 6 |} <> 0 /\
  if numerator {| numerator := 5; denominator := 6 |} =? 0
  then truediv {| numerator := 3; denominator := 4 |}
         {| numerator := 5; denominator := 6 |}
       = Raise (ValueError "Denominator cannot be zero.")
  else exists r, truediv {| numerator := 3; denominator := 4 |}
                   {| numerator := 5; denominator := 6 |} = Return r /\
                 reduced r /\
                 (to_Q r == to_Q {| numerator := 3; denominator := 4 |}
                            / to_Q {| numerator := 5; denominator := 6 |})%Q.
Proof.
  split; [simpl; lia | split; [simpl; lia |]].
  apply (fraction_truediv {| numerator := 3; denominator := 4 |}
           {| numerator := 5; denominator := 6 |}); simpl; lia.
Defined.

Lemma fraction_eq_same_value_witness :
  reduced {| numerator := 1; denominator := 2 |} /\
  reduced {| numerator := 3; denominator := 4 |} /\
  0 < denominator {| numerator := 1; denominator := 2 |} /\
  0 < denominator {| numerator := 3; denominator := 4 |} /\
  (eq {| numerator := 1; denominator := 2 |}
     {| numerator := 3; denominator := 4 |} = true <->
   (to_Q {| numerator := 1; denominator := 2 |}
    == to_Q {| numerator := 3; denominator := 4 |})%Q).
Proof.
  assert (R1 : reduced {| numerator := 1; denominator := 2 |})
    by (split; [simpl; lia | reflexivity]).
  assert (R2 : reduced {| numerator := 3; denominator := 4 |})
    by (split; [simpl; lia | reflexivity]).
  split; [exact R1 | split; [exact R2 |]].
  split; [simpl; lia | split; [simpl; lia |]].
  apply (fraction_eq_same_value _ _ R1 R2); simpl; lia.
Defined.

Lemma fraction_order_witness :
  denominator {| numerator := 1; denominator := -2 |} <> 0 /\
  denominator {| numerator := 1; denominator := 2 |} <> 0 /\
  (if 0 <? denominator {| numerator := 1; denominator := -2 |}
           * denominator {| numerator := 1; denominator := 2 |}
   then (lt {| numerator := 1; denominator := -2 |}
           {| numerator := 1; denominator := 2 |} = true <->
         (to_Q {| numerator := 1; denominator := -2 |}
          < to_Q {| numerator := 1; denominator := 2 |})%Q) /\
        (le {| numerator := 1; denominator := -2 |}
           {| numerator := 1; denominator := 2 |} = true <->
         (to_Q {| numerator := 1; denominator := -2 |}
          <= to_Q {| numerator := 1; denominator := 2 |})%Q)
   else (lt {| numerator := 1; denominator := -2 |}
           {| numerator := 1; denominator := 2 |} = true <->
         (to_Q {| numerator := 1; denominator := 2 |}
          < to_Q {| numerator := 1; denominator := -2 |})%Q) /\
        (le {| numerator := 1; denominator := -2 |}
           {| numerator := 1; denominator := 2 |} = true <->
         (to_Q {| numerator := 1; denominator := 2 |}
          <= to_Q {| numerator := 1; denominator := -2 |})%Q)) /\
  gt {| numerator := 1; denominator := -2 |}
    {| numerator := 1; denominator := 2 |}
  = lt {| numerator := 1; denominator := 2 |}
      {| numerator := 1; denominator := -2 |} /\
  ge {| numerator := 1; denominator := -2 |}
    {| numerator := 1; denominator := 2 |}
  = le {| numerator := 1; denominator := 2 |}
      {| numerator := 1; denominator := -2 |}.
Proof.
  split; [simpl; lia | split; [simpl; lia |]].
  apply (fraction_order {| numerator := 1; denominator := -2 |}
           {| numerator := 1; denominator := 2 |}); simpl; lia.
Defined.

(** The outputs that the chapter prints, lines 137 to 140. *)
Example fraction_chapter_outputs :
  add {| numerator := 3; denominator := 4 |}
    {| numerator := 5; denominator := 6 |}
  = Return {| numerator := 19; denominator := 12 |} /\
  sub {| numerator := 3; denominator := 4 |}
    {| numerator := 5; denominator := 6 |}
  = Return {| numerator := -1; denominator := 12 |} /\
  mul {| numerator := 3; denominator := 4 |}
    {| numerator := 5; denominator := 6 |}
  = Return {| numerator := 5; denominator := 8 |} /\
  truediv {| numerator := 3; denominator := 4 |}
    {| numerator := 5; denominator := 6 |}
  = Return {| numerator := 9; denominator := 10 |}.
Proof. repeat split. Qed.

(** [__init__] keeps the sign of the denominator: [Fraction(1, -2)] and
    [Fraction(-1, 2)] stand for the same rational, are not [==], and
    [Fraction(1, -2) < Fraction(1, 2)] is [False]. *)
Example fraction_negative_denominator :
  init 1 (-2) = Return {| numerator := 1; denominator := -2 |} /\
  init (-1) 2 = Return {| numerator := -1; denominator := 2 |} /\
  eq {| numerator := 1; denominator := -2 |}
    {| numerator := -1; denominator := 2 |} = false /\
  lt {| numerator := 1; denominator := -2 |}
    {| numerator := 1; denominator := 2 |} = false.
Proof. repeat split. Qed.

End FractionProperties.

(** ** [SortedList] *)
Section SortedListProperties.
Import Py SortedList.
Local Open Scope Z_scope.

Lemma insert_perm v l : Permutation (v :: l) (insert v l).
Proof.
  induction l as [|x rest IH]; simpl; [reflexivity |].
  destruct (v <=? x); [reflexivity |].
  rewrite perm_swap. now constructor.
Qed.

Lemma sort_perm l : Permutation l (sort l).
Proof.
  induction l as [|x rest IH]; simpl; [constructor |].
  rewrite <- insert_perm. now constructor.
Qed.

Lemma insert_sorted v l :
  StronglySorted Z.le l -> StronglySorted Z.le (insert v l).
Proof.
  induction 1 as [|x rest Hrest IH Hx]; simpl.
  - repeat constructor.
  - destruct (Z.leb_spec v x) as [Hle | Hlt].
    + constructor; [now constructor |].
      constructor; [exact Hle |].
      eapply Forall_impl; [| exact Hx]. intros y Hy. simpl in Hy. lia.
    + constructor; [exact IH |].
      apply (Permutation_Forall (insert_perm v rest)).
      constructor; [lia | exact Hx].
Qed.

Lemma sort_sorted l : StronglySorted Z.le (sort l).
Proof.
  induction l as [|x rest IH]; simpl; [constructor | now apply insert_sorted].
Qed.

Lemma remove_at_Forall (P : Z -> Prop) k : forall l,
  Forall P l -> Forall P (remove_at k l).
Proof.
  induction k as [|k IH]; intros l H; destruct H; simpl;
    try constructor; auto.
Qed.

Lemma remove_at_sorted k : forall l,
  StronglySorted Z.le l -> StronglySorted Z.le (remove_at k l).
Proof.
  induction k as [|k IH]; intros l H; destruct H as [|x rest Hrest Hx]; simpl;
    try constructor; auto using remove_at_Forall.
Qed.

Lemma remove_at_perm k : forall l x,
  nth_error l k = Some x -> Permutation l (x :: remove_at k l).
Proof.
  induction k as [|k IH]; intros [|y rest] x H; simpl in *; try discriminate.
  - injection H as ->. reflexivity.
  - rewrite perm_swap. constructor. now apply IH.
Qed.

Lemma update_perm k : forall l x v,
  nth_error l k = Some x -> Permutation (x :: update k v l) (v :: l).
Proof.
  induction k as [|k IH]; intros [|y rest] x v H; simpl in *; try discriminate.
  - injection H as ->. apply perm_swap.
  - apply perm_trans with (y :: x :: update k v rest); [apply perm_swap |].
    apply perm_trans with (y :: v :: rest); [| apply perm_swap].
    constructor. now apply IH.
Qed.

Lemma position_Some len index k :
  position len index = Some k ->
  (k < len)%nat /\ - Z.of_nat len <= index < Z.of_nat len /\
  (Z.of_nat k = index \/ Z.of_nat k = index + Z.of_nat len).
Proof.
  unfold position.
  destruct (Z.leb_spec 0 index); destruct (Z.ltb_spec index (Z.of_nat len));
    destruct (Z.ltb_spec index 0); destruct (Z.leb_spec (- Z.of_nat len) index);
    simpl; intros E; try discriminate; injection E as <-; lia.
Qed.

Lemma position_None len index :
  position len index = None ->
  index < - Z.of_nat len \/ Z.of_nat len <= index.
Proof.
  unfold position.
  destruct (Z.leb_spec 0 index); destruct (Z.ltb_spec index (Z.of_nat len));
    destruct (Z.ltb_spec index 0); destruct (Z.leb_spec (- Z.of_nat len) index);
    simpl; intros E; try discriminate; lia.
Qed.

Lemma position_getitem self index k :
  position (length (data self)) index = Some k ->
  exists x, nth_error (data self) k = Some x /\ getitem self index = Return x.
Proof.
  intros H. unfold getitem. rewrite H.
  destruct (position_Some _ _ _ H) as [Hk _].
  destruct (nth_error (data self) k) as [x|] eqn:E; [eauto |].
  apply nth_error_None in E. lia.
Qed.

Lemma contains_In self v : contains self v = true <-> In v (data self).
Proof.
  unfold contains. rewrite existsb_exists. split.
  - intros [x [Hx E]]. apply Z.eqb_eq in E. now subst.
  - intros H. exists v. split; [exact H | apply Z.eqb_refl].
Qed.

Lemma apply_sorted self op :
  StronglySorted Z.le (data self) ->
  match apply self op with
  | Return self' => StronglySorted Z.le (data self')
  | Raise _ => True
  end.
Proof.
  intros H. destruct op as [v | i v | i]; simpl.
  - apply sort_sorted.
  - unfold setitem. destruct (position _ i); simpl; [apply sort_sorted | exact I].
  - unfold delitem. destruct (position _ i); simpl;
      [now apply remove_at_sorted | exact I].
Qed.

(** X12: whatever the initial data and whatever sequence of [append],
    [lst[i] = v] and [del lst[i]] follows, operations that raise included,
    the data of the list is in ascending order. *)
Theorem sortedlist_always_sorted (initial_data : list Z) (ops : list operation) :
  StronglySorted Z.le (data (apply_all (init initial_data) ops)).
Proof.
  assert (H : StronglySorted Z.le (data (init initial_data)))
    by apply sort_sorted.
  revert H. generalize (init initial_data) as self.
  induction ops as [|op ops IH]; intros self H; simpl; [exact H |].
  pose proof (apply_sorted self op H) as Hop.
  destruct (apply self op); now apply IH.
Qed.

(** X13: [append] adds exactly one occurrence of the value and keeps
    every other element; the length grows by one and the value is [in]
    the list afterwards. *)
Theorem sortedlist_append (self : t) (value : Z) :
  Permutation (value :: data self) (data (append self value)) /\
  len (append self value) = len self + 1 /\
  contains (append self value) value = true.
Proof.
  assert (P : Permutation (value :: data self) (data (append self value))).
  { unfold append. simpl. rewrite <- sort_perm.
    apply Permutation_cons_append. }
  split; [exact P |]. split.
  - unfold len. rewrite <- (Permutation_length P). simpl. lia.
  - apply contains_In. apply (Permutation_in _ P). now left.
Qed.

(** X14: [lst[index] = value] raises IndexError exactly when [index] is
    outside [-len, len) and changes nothing then; otherwise the element
    that was at [index] is replaced by [value], every other element is
    kept, the length is unchanged and [value] is [in] the list. *)
Theorem sortedlist_setitem (self : t) (index value : Z) :
  match setitem self index value with
  | Return self' =>
      - len self <= index < len self /\
      len self' = len self /\
      contains self' value = true /\
      exists x, getitem self index = Return x /\
                Permutation (x :: data self') (value :: data self)
  | Raise e =>
      e = IndexError /\ (index < - len self \/ len self <= index)
  end.
Proof.
  unfold setitem, len.
  destruct (position (length (data self)) index) as [k|] eqn:Hk.
  - destruct (position_Some _ _ _ Hk) as [_ [Hrange _]].
    destruct (position_getitem _ _ _ Hk) as [x [Hx Hget]].
    assert (P : Permutation (x :: sort (update k value (data self)))
                  (value :: data self)).
    { rewrite <- sort_perm. now apply update_perm. }
    simpl. split; [exact Hrange |]. split.
    + apply Permutation_length in P. simpl in P. lia.
    + split; [| eauto].
      apply contains_In. simpl.
      assert (Hin : In value (x :: sort (update k value (data self))))
        by (apply (Permutation_in _ (Permutation_sym P)); now left).
      destruct Hin as [-> | Hin]; [| exact Hin].
      rewrite <- sort_perm.
      clear - Hx. revert k Hx. generalize (data self) as l.
      induction l as [|y rest IH]; intros [|k] Hx; simpl in *;
        try discriminate; auto.
  - split; [reflexivity | now apply position_None].
Qed.

(** X15: [del lst[index]] raises IndexError exactly when [index] is
    outside [-len, len); otherwise it removes the element that was at
    [index], exactly once, and keeps every other element. *)
Theorem sortedlist_delitem (self : t) (index : Z) :
  match delitem self index with
  | Return self' =>
      - len self <= index < len self /\
      len self' = len self - 1 /\
      exists x, getitem self index = Return x /\
                Permutation (data self) (x :: data self')
  | Raise e =>
      e = IndexError /\ (index < - len self \/ len self <= index)
  end.
Proof.
  unfold delitem, len.
  destruct (position (length (data self)) index) as [k|] eqn:Hk.
  - destruct (position_Some _ _ _ Hk) as [_ [Hrange _]].
    destruct (position_getitem _ _ _ Hk) as [x [Hx Hget]].
    pose proof (remove_at_perm _ _ _ Hx) as P.
    simpl. split; [exact Hrange |]. split; [| eauto].
    apply Permutation_length in P. simpl in P. lia.
  - split; [reflexivity | now apply position_None].
Qed.



(** The outputs that the chapter prints, lines 287 to 294; after
    [lst[1] = 5] the item at index 1 is 2, not 5. *)
Example sortedlist_chapter_outputs :
  init [3; 1; 2] = {| data := [1; 2; 3] |} /\
  append (init [3; 1; 2]) 0 = {| data := [0; 1; 2; 3] |} /\
  setitem {| data := [0; 1; 2; 3] |} 1 5 = Return {| data := [0; 2; 3; 5] |} /\
  getitem {| data := [0; 2; 3; 5] |} 1 = Return 2 /\
  apply_all (init [3; 1; 2]) [Append 0; SetItem 1 5; DelItem 2]
  = {| data := [0; 2; 5] |}.
Proof. repeat split. Qed.

End SortedListProperties.

(** ** [Polynomial] *)
Section PolynomialProperties.
Import Polynomial.
Local Open Scope Z_scope.

Lemma fold_add_from l : forall acc,
  fold_left Z.add l acc = acc + fold_left Z.add l 0.
Proof.
  induction l as [|b l IH]; intros acc; simpl; [lia |].
  rewrite (IH (acc + b)), (IH b). lia.
Qed.

Lemma sum_cons a l : sum (a :: l) = a + sum l.
Proof. unfold sum. simpl. apply fold_add_from. Qed.

Lemma terms_shift (x : Z) (n : nat) (l : list Z) : forall s,
  map (fun ic : nat * Z =>
         let (i, coef) := ic in
         coef * x ^ (Z.of_nat (S n) - Z.of_nat i - 1))
    (combine (seq (S s) (length l)) l)
  = map (fun ic : nat * Z =>
           let (i, coef) := ic in
           coef * x ^ (Z.of_nat n - Z.of_nat i - 1))
      (combine (seq s (length l)) l).
Proof.
  induction l as [|c l IH]; intros s; [reflexivity |].
  cbn [length seq combine map]. rewrite IH.
  f_equal. f_equal. f_equal. lia.
Qed.

Lemma call_cons c rest x :
  call (c :: rest) x = c * x ^ Z.of_nat (length rest) + call rest x.
Proof.
  unfold call, enumerate.
  change (length (c :: rest)) with (S (length rest)).
  cbn [seq combine map]. rewrite sum_cons, terms_shift.
  do 2 f_equal. f_equal. lia.
Qed.

Lemma horner_from (x : Z) (l : list Z) : forall acc,
  fold_left (fun a coef => a * x + coef) l acc
  = acc * x ^ Z.of_nat (length l) + call l x.
Proof.
  induction l as [|c l IH]; intros acc.
  - simpl. unfold call, sum. simpl. lia.
  - cbn [fold_left]. rewrite IH, call_cons.
    change (length (c :: l)) with (S (length l)).
    rewrite Nat2Z.inj_succ, Z.pow_succ_r by lia. ring.
Qed.

(** X17: calling a polynomial computes what Horner's rule computes on
    the coefficients read from the first to the last. *)
Theorem polynomial_call_horner (coefficients : list Z) (x : Z) :
  call coefficients x = horner coefficients x.
Proof. unfold horner. rewrite horner_from. lia. Qed.

(** X18: the last coefficient is the constant term: a coefficient added
    at the end multiplies the value of the others by [x] and adds itself,
    and the value at 0 is the last coefficient. *)
Theorem polynomial_constant_last (coefficients : list Z) (c x : Z) :
  call (coefficients ++ [c]) x = call coefficients x * x + c /\
  call (coefficients ++ [c]) 0 = c.
Proof.
  assert (E : forall y, call (coefficients ++ [c]) y
                        = call coefficients y * y + c).
  { intros y.
    pose proof (horner_from y (coefficients ++ [c]) 0) as H1.
    pose proof (horner_from y coefficients 0) as H2.
    rewrite fold_left_app in H1. simpl in H1. lia. }
  split; [apply E | rewrite E; lia].
Qed.

(** The output that the chapter prints, line 369: 3x^2 + 4x + 10 at 2. *)
Example polynomial_chapter_output : call [3; 4; 10] 2 = 30.
Proof. reflexivity. Qed.

End PolynomialProperties.
